(** * enmime: the MIME encoder (encode.go, internal/stringutil/addr.go)

    A shallow embedding of the encoding pipeline: the transfer-encoding
    classifier, the content encoder, the header block encoder, the
    address list formatter and the part tree serializer, followed by the
    properties the specification states about them. *)

From Stdlib Require Import ZArith NArith Ascii String List Bool Lia.
From stdpp Require Import gmap strings list sorting.
Import ListNotations.

Local Open Scope Z_scope.

(** ** Bytes, Go's [int], results *)

(** A Go [byte]; a [[]byte] is a list of them, a Go [string] a [string]. *)
Abbreviation byte := ascii.
Abbreviation bytes := (list ascii).

Definition byte_ltb (a b : byte) : bool := (N_of_ascii a <? N_of_ascii b)%N.

Definition CR : byte := "013"%char.
Definition LF : byte := "010"%char.
Definition TAB : byte := "009"%char.
Definition SP : byte := " "%char.

(** [var crnl = []byte{'\r', '\n'}] *)
Definition crnl : bytes := [CR; LF].

(** Go's [int] is a 64-bit two's complement integer on the platforms the
    package targets: the result of an arithmetic operation wraps. *)
Definition wrap_int (z : Z) : Z := (z + 2 ^ 63) mod 2 ^ 64 - 2 ^ 63.

(** [len] of a slice or a string, as a Go [int]. *)
Definition len {A} (l : list A) : Z := Z.of_nat (length l).

(** ** Transfer-Encoding Classifier *)

(** [const b64Percent = 20] *)
Definition b64Percent : Z := 20.

Inductive TransferEncoding : Set := TE7Bit | TEQuoted | TEBase64.

(** The test of the loop body, [(b < ' ' || '~' < b) && b != '\t']. *)
Definition outsidePrintable (b : byte) : bool :=
  (byte_ltb b SP || byte_ltb "~"%char b) && negb (Ascii.eqb b TAB).

Definition isLineBreak (b : byte) : bool := Ascii.eqb b CR || Ascii.eqb b LF.

(** The [for _, b := range content] loop of [SelectTransferEncoding],
    from a given value of [bincount]; it returns what the function
    returns, the early [return TEBase64] included. *)
Fixpoint scanContent (quoteLineBreaks : bool) (threshold bincount : Z)
    (content : bytes) : TransferEncoding :=
  match content with
  | [] => if bincount =? 0 then TE7Bit else TEQuoted
  | b :: rest =>
      if outsidePrintable b then
        if negb quoteLineBreaks && isLineBreak b then
          scanContent quoteLineBreaks threshold bincount rest
        else
          let bincount := bincount + 1 in
          if bincount >=? threshold then TEBase64
          else scanContent quoteLineBreaks threshold bincount rest
      else scanContent quoteLineBreaks threshold bincount rest
  end.

(** [threshold := b64Percent * len(content) / 100]; Go's [/] truncates. *)
Definition b64Threshold (content : bytes) : Z :=
  Z.quot (wrap_int (b64Percent * len content)) 100.

Definition SelectTransferEncoding (content : bytes) (quoteLineBreaks : bool)
    : TransferEncoding :=
  if len content =? 0 then TE7Bit
  else scanContent quoteLineBreaks (b64Threshold content) 0 content.

(** *** The classifier as the specification words it *)

(** A byte is non-plain when it is outside 0x20..0x7E and is not a tab;
    CR and LF are exempt unless line breaks are quoted. *)
Definition nonPlain (quoteLineBreaks : bool) (b : byte) : bool :=
  let n := N_of_ascii b in
  negb ((32 <=? n)%N && (n <=? 126)%N) && negb (n =? 9)%N
  && (quoteLineBreaks || negb ((n =? 13)%N || (n =? 10)%N)).

Definition nonPlainCount (quoteLineBreaks : bool) (content : bytes) : Z :=
  len (List.filter (nonPlain quoteLineBreaks) content).

(** The variant that scans every byte before it decides. *)
Definition SelectTransferEncoding_fullscan (content : bytes)
    (quoteLineBreaks : bool) : TransferEncoding :=
  let total := nonPlainCount quoteLineBreaks content in
  if total =? 0 then TE7Bit
  else if total >=? b64Threshold content then TEBase64
  else TEQuoted.

(** The verdict on a total count and a threshold. *)
Definition verdict (threshold total : Z) : TransferEncoding :=
  if total =? 0 then TE7Bit
  else if total >=? threshold then TEBase64 else TEQuoted.

(** Printable ASCII, tab, CR or LF. *)
Definition plainOrLineBreak (b : byte) : bool :=
  let n := N_of_ascii b in
  ((32 <=? n)%N && (n <=? 126)%N) || (n =? 9)%N || (n =? 13)%N || (n =? 10)%N.

(** ** Content Encoder: base64 *)

(** [[]byte(s)] and [string(b)]. *)
Definition bytesOf (s : string) : bytes := list_ascii_of_string s.
Definition stringOf (b : bytes) : string := string_of_list_ascii b.

Definition byteVal (b : byte) : Z := Z.of_N (N_of_ascii b).

(** The alphabet of [base64.StdEncoding] (RFC 4648, table 1) and its
    padding character. *)
Definition encodeStd : bytes :=
  bytesOf "ABCDEFGHIJKLMNOPQRSTUVWXYZabcdefghijklmnopqrstuvwxyz0123456789+/".

Definition padChar : byte := "="%char.

(** [enc.encode[i]] *)
Definition encodeAt (i : Z) : byte := nth (Z.to_nat i) encodeStd "000"%char.

(** [base64.StdEncoding.Encode]: three source bytes make one 24-bit
    [val], written as four alphabet characters; a remainder of one or two
    bytes is written as two or three characters and padded. *)
Fixpoint base64Encode (src : bytes) : bytes :=
  match src with
  | [] => []
  | [b0] =>
      let val := Z.shiftl (byteVal b0) 16 in
      [encodeAt (Z.land (Z.shiftr val 18) 63);
       encodeAt (Z.land (Z.shiftr val 12) 63); padChar; padChar]
  | [b0; b1] =>
      let val := Z.lor (Z.shiftl (byteVal b0) 16) (Z.shiftl (byteVal b1) 8) in
      [encodeAt (Z.land (Z.shiftr val 18) 63);
       encodeAt (Z.land (Z.shiftr val 12) 63);
       encodeAt (Z.land (Z.shiftr val 6) 63); padChar]
  | b0 :: b1 :: b2 :: rest =>
      let val := Z.lor (Z.lor (Z.shiftl (byteVal b0) 16)
                              (Z.shiftl (byteVal b1) 8)) (byteVal b2) in
      encodeAt (Z.land (Z.shiftr val 18) 63)
      :: encodeAt (Z.land (Z.shiftr val 12) 63)
      :: encodeAt (Z.land (Z.shiftr val 6) 63)
      :: encodeAt (Z.land val 63) :: base64Encode rest
  end.

(** The line-wrapping loop of the [TEBase64] case, [for len(text) > 0];
    [fuel] bounds the number of iterations. *)
Fixpoint wrapLoop (fuel : nat) (lineLen : Z) (text : bytes) : bytes :=
  match fuel with
  | O => []
  | S fuel =>
      if len text >? 0 then
        let lineLen := if lineLen >? len text then len text else lineLen in
        firstn (Z.to_nat lineLen) text ++ crnl
          ++ wrapLoop fuel lineLen (skipn (Z.to_nat lineLen) text)
      else []
  end.

(** Every iteration removes at least one character, so [len(text)]
    iterations always reach the end of the loop. *)
Definition wrapBase64 (text : bytes) : bytes :=
  wrapLoop (S (length text)) 76 text.

(** *** Decoding, for the round trip *)

(** The position of a character in the alphabet. *)
Fixpoint indexIn (c : byte) (alphabet : bytes) (i : Z) : option Z :=
  match alphabet with
  | [] => None
  | a :: rest => if Ascii.eqb a c then Some i else indexIn c rest (i + 1)
  end.

Definition decodeAt (c : byte) : option Z := indexIn c encodeStd 0.

Definition byteOf (z : Z) : byte := ascii_of_N (Z.to_N (Z.land z 255)).

(** Strict RFC 4648 decoding of padded text: groups of four characters,
    padding only in the last group. *)
Fixpoint base64Decode (text : bytes) : option bytes :=
  match text with
  | [] => Some []
  | c0 :: c1 :: c2 :: c3 :: rest =>
      match decodeAt c0, decodeAt c1 with
      | Some i0, Some i1 =>
          if Ascii.eqb c3 padChar && match rest with [] => true | _ => false end then
            if Ascii.eqb c2 padChar then
              let val := Z.lor (Z.shiftl i0 18) (Z.shiftl i1 12) in
              Some [byteOf (Z.shiftr val 16)]
            else
              match decodeAt c2 with
              | Some i2 =>
                  let val := Z.lor (Z.lor (Z.shiftl i0 18) (Z.shiftl i1 12))
                                   (Z.shiftl i2 6) in
                  Some [byteOf (Z.shiftr val 16); byteOf (Z.shiftr val 8)]
              | None => None
              end
          else
            match decodeAt c2, decodeAt c3, base64Decode rest with
            | Some i2, Some i3, Some out =>
                let val := Z.lor (Z.lor (Z.lor (Z.shiftl i0 18) (Z.shiftl i1 12))
                                        (Z.shiftl i2 6)) i3 in
                Some (byteOf (Z.shiftr val 16) :: byteOf (Z.shiftr val 8)
                        :: byteOf val :: out)
            | _, _, _ => None
            end
      | _, _ => None
      end
  | _ => None
  end.

(** A character of base64 text: of the alphabet, or the padding. *)
Definition isBase64Char (c : byte) : bool :=
  existsb (Ascii.eqb c) encodeStd || Ascii.eqb c padChar.

(** The physical lines of a text: the pieces between CRLF pairs. *)
Fixpoint physicalLines (s : bytes) : list bytes :=
  match s with
  | [] => [[]]
  | c :: t =>
      match t with
      | d :: t' =>
          if Ascii.eqb c CR && Ascii.eqb d LF then [] :: physicalLines t'
          else match physicalLines t with
               | l :: ls => (c :: l) :: ls
               | [] => [[c]]
               end
      | [] => [[c]]
      end
  end.

(** Removing the line terminators. *)
Definition stripCRLF (s : bytes) : bytes :=
  List.filter (fun c => negb (isLineBreak c)) s.

(** ** Results *)

(** A Go [error] value, by its message. *)
Definition error : Type := string.

(** The outcome of a call that returns a value and an [error]. *)
Inductive Result (A : Type) : Type :=
  | Ok (a : A)
  | Err (e : error).

Arguments Ok {A} a.
Arguments Err {A} e.

Definition isOk {A} (r : Result A) : bool :=
  match r with Ok _ => true | Err _ => false end.

(** ** Header folding *)

(** Modelled from the spec: the words of a line, the tokens that
    [stringutil.Wrap] never splits: the pieces between single spaces. *)
Fixpoint splitWords (s : bytes) : list bytes :=
  match s with
  | [] => [[]]
  | c :: t =>
      if Ascii.eqb c SP then [] :: splitWords t
      else match splitWords t with
           | w :: ws => (c :: w) :: ws
           | [] => [[c]]
           end
  end.

(** Modelled from the spec: the folding of [stringutil.Wrap]. The words
    after the first, each behind its separating space, or behind a fold
    (CRLF and that space) when the word would pass column [max]; [col] is
    the length of the physical line so far. *)
Fixpoint foldWords (max col : Z) (words : list bytes) : bytes :=
  match words with
  | [] => []
  | w :: rest =>
      if col + 1 + len w >? max then
        crnl ++ SP :: w ++ foldWords max (1 + len w) rest
      else SP :: w ++ foldWords max (col + 1 + len w) rest
  end.

(** Modelled from the spec: [stringutil.Wrap], whose file is not among the
    sources. The strings are joined into one line, and the line is folded
    so that no physical line exceeds [max] columns: the break is taken
    before the column limit is exceeded, a fold is CRLF followed by a
    single space, and counting resumes from column 0 on the continuation
    line. A word (a token between spaces) is never split. *)
Definition Wrap (max : Z) (strs : list string) : bytes :=
  match splitWords (concat (map bytesOf strs)) with
  | [] => []
  | w :: rest => w ++ foldWords max (len w) rest
  end.

(** ** Data model *)

(** [textproto.MIMEHeader], a [map[string][]string]. *)
Abbreviation MIMEHeader := (gmap string (list string)).

(** The token source [stringutil.UUID] draws from: the number of tokens
    drawn so far. *)
Definition World : Type := nat.

(** A part of the tree. [Header] is [None] for Go's [nil] map;
    [FileModDate] counts seconds from the zero [time.Time]; the
    [FirstChild]/[NextSibling] chain is the list [Children]. *)
#[warnings="-register-all"] Inductive Part : Type := mkPart {
  Header : option MIMEHeader;
  Content : bytes;
  ContentType : string;
  Charset : string;
  Disposition : string;
  FileName : string;
  FileModDate : Z;
  ContentID : string;
  Boundary : string;
  Children : list Part
}.

Definition setHeader (h : MIMEHeader) (p : Part) : Part :=
  mkPart (Some h) (Content p) (ContentType p) (Charset p) (Disposition p)
         (FileName p) (FileModDate p) (ContentID p) (Boundary p) (Children p).

Definition setCharset (cs : string) (p : Part) : Part :=
  mkPart (Header p) (Content p) (ContentType p) cs (Disposition p)
         (FileName p) (FileModDate p) (ContentID p) (Boundary p) (Children p).

Definition setBoundary (b : string) (p : Part) : Part :=
  mkPart (Header p) (Content p) (ContentType p) (Charset p) (Disposition p)
         (FileName p) (FileModDate p) (ContentID p) b (Children p).

(** The header map of a part, a [nil] map read as the empty one. *)
Definition headerOf (p : Part) : MIMEHeader := default ∅ (Header p).

(** [Part{}], the zero value. *)
Definition emptyPart : Part := mkPart None [] "" "" "" "" 0 "" "" [].

(** *** The header map *)

Definition isUpper (c : byte) : bool :=
  (N_of_ascii "A" <=? N_of_ascii c)%N && (N_of_ascii c <=? N_of_ascii "Z")%N.
Definition isLower (c : byte) : bool :=
  (N_of_ascii "a" <=? N_of_ascii c)%N && (N_of_ascii c <=? N_of_ascii "z")%N.
Definition isDigit (c : byte) : bool :=
  (N_of_ascii "0" <=? N_of_ascii c)%N && (N_of_ascii c <=? N_of_ascii "9")%N.
Definition toUpper (c : byte) : byte :=
  if isLower c then ascii_of_N (N_of_ascii c - 32) else c.
Definition toLower (c : byte) : byte :=
  if isUpper c then ascii_of_N (N_of_ascii c + 32) else c.

(** RFC 7230 token characters, the bytes a header field name may hold. *)
Definition isTokenByte (c : byte) : bool :=
  isUpper c || isLower c || isDigit c
  || existsb (Ascii.eqb c) (bytesOf "!#$%&'*+-.^_`|~").

Fixpoint canonicalBytes (upper : bool) (s : bytes) : bytes :=
  match s with
  | [] => []
  | c :: t =>
      (if upper then toUpper c else toLower c)
        :: canonicalBytes (Ascii.eqb c "-") t
  end.

(** [textproto.CanonicalMIMEHeaderKey]: the first letter and every letter
    after a hyphen in upper case, the others in lower case; a key with a
    byte that is no token character is returned unchanged. *)
Definition CanonicalMIMEHeaderKey (k : string) : string :=
  if forallb isTokenByte (bytesOf k)
  then stringOf (canonicalBytes true (bytesOf k)) else k.

(** [h.Set(key, value)] and [h.Del(key)]. *)
Definition Header_Set (key value : string) (h : MIMEHeader) : MIMEHeader :=
  <[CanonicalMIMEHeaderKey key := [value]]> h.
Definition Header_Del (key : string) (h : MIMEHeader) : MIMEHeader :=
  delete (CanonicalMIMEHeaderKey key) h.

(** Modelled from the spec: the header names, parameter names and
    encoding names declared in header.go, which is not among the sources.
    They are the names RFC 2045 and RFC 2183 give to the headers and
    parameters the spec lists (Content-Type with charset, name and
    boundary; Content-Disposition with filename and modification date;
    Content-ID; the transfer-encoding header; the UTF-8 default). *)
Definition hnContentEncoding : string := "Content-Transfer-Encoding".
Definition hnContentType : string := "Content-Type".
Definition hnContentDisposition : string := "Content-Disposition".
Definition hnContentID : string := "Content-ID".
Definition hpCharset : string := "charset".
Definition hpName : string := "name".
Definition hpBoundary : string := "boundary".
Definition hpFilename : string := "filename".
Definition hpModDate : string := "modification-date".
Definition cteBase64 : string := "base64".
Definition cteQuotedPrintable : string := "quoted-printable".
Definition utf8 : string := "utf-8".

(** [setParamValue] will ignore empty values. *)
Definition setParamValue (p : gmap string string) (k v : string)
    : gmap string string :=
  if String.eqb v "" then p else <[k := v]> p.

(** ** What the encoder calls outside the sources *)

(** The functions of other files of the package and of Go's library that
    the encoder calls; the development is parametric in them. *)
Class Externals : Type := {
  (** the method [TextContent] of [Part], of part.go *)
  TextContent : Part -> bool;
  (** [stringutil.ToASCII] *)
  ToASCII : string -> string;
  (** [coding.ToIDHeader] *)
  ToIDHeader : string -> string;
  (** [stringutil.UUID], by the number of tokens drawn before *)
  UUID : World -> string;
  (** [mime.FormatMediaType]; the empty string reports a failure *)
  FormatMediaType : string -> gmap string string -> string;
  (** [t.Format(time.RFC822)] *)
  formatRFC822 : Z -> string;
  (** [mime.BEncoding.Encode] and [mime.QEncoding.Encode] *)
  BEncode : string -> string -> string;
  QEncode : string -> string -> string;
  (** what a [quotedprintable.Writer] has written once closed *)
  quotedPrintable : bytes -> bytes;
  (** [(&mail.Address{Address: a}).String()] *)
  addressString : string -> string
}.

(** ** The encoder and its strategies *)

(** [HeaderEncoder], by its one method
    [Encode(startColumn int, v string) (int, string, error)]. *)
Definition HeaderEncoder : Type := Z -> string -> Result (Z * string).

(** What a header-encoder factory may read of the encoder it is given.
    Go hands the factory the [*Encoder] itself; a record cannot have a
    field that takes the record as an argument, so the factory is given
    the encoder's three other strategies. *)
Record EncoderView : Type := mkEncoderView {
  viewTransferEncodingDeterminer : bytes -> bool -> TransferEncoding;
  viewContentTypeDeterminer : Part -> bool;
  viewBoundaryGenerator : World -> string * World
}.

(** [type HeaderEncoderFactory func(e *Encoder, p *Part) (HeaderEncoder, error)] *)
Definition HeaderEncoderFactory : Type :=
  EncoderView -> Part -> Result HeaderEncoder.

(** [type Encoder struct]. A boundary generator is a [func() string]; it
    may draw from the token source, which it is given and returns. *)
Record Encoder : Type := mkEncoder {
  transferEncodingDeterminer : bytes -> bool -> TransferEncoding;
  contentTypeDeterminer : Part -> bool;
  boundaryGenerator : World -> string * World;
  headerEncoderFactory : HeaderEncoderFactory
}.

Definition viewOf (e : Encoder) : EncoderView :=
  mkEncoderView (transferEncodingDeterminer e) (contentTypeDeterminer e)
                (boundaryGenerator e).

(** [type EncoderOption], a function from an encoder (by pointer) to
    the same encoder, changed. *)
Definition EncoderOption : Type := Encoder -> Encoder.

Definition WithTransferEncodingDeterminer
    (det : bytes -> bool -> TransferEncoding) : EncoderOption :=
  fun e => mkEncoder det (contentTypeDeterminer e) (boundaryGenerator e)
                     (headerEncoderFactory e).

Definition WithContentTypeDeterminer (det : Part -> bool) : EncoderOption :=
  fun e => mkEncoder (transferEncodingDeterminer e) det (boundaryGenerator e)
                     (headerEncoderFactory e).

Definition WithHeaderEncoderFactory (f : HeaderEncoderFactory) : EncoderOption :=
  fun e => mkEncoder (transferEncodingDeterminer e) (contentTypeDeterminer e)
                     (boundaryGenerator e) f.

(** ** Address List Formatter *)

(** [mail.Address] *)
Record MailAddress : Type := mkAddress { Name : string; Address : string }.

(** [var crlf = []byte{13, 10}] *)
Definition crlf : bytes := [ascii_of_N 13; ascii_of_N 10].

Section Encoding.
Context {ext : Externals}.

(** The body of the [for i, a := range addrs] loop of
    [EncodeAwareJoinAddress], from index [i] on, with the function's
    [col] and the contents of [buf]. Inside [if a.Name != ""] the
    statement [col, encoded, err := headerEncoder(col, a.Name)] declares
    a new [col] for that block ([colName] below): the fold test and the
    updates of the block act on it, and the function's [col] keeps the
    value it had before the name. *)
Fixpoint joinAddresses (headerEncoder : HeaderEncoder) (i col : Z)
    (buf : bytes) (addrs : list MailAddress) : Result string :=
  match addrs with
  | [] => Ok (stringOf buf)
  | a :: rest =>
      let '(col, buf) :=
        if i >? 0 then
          let buf := buf ++ [","%char] in
          let col := wrap_int (col + 1) in
          let '(col, buf) := if col >? 76 then (0, buf ++ crlf) else (col, buf) in
          (wrap_int (col + 1), buf ++ [SP])
        else (col, buf) in
      let named :=
        if negb (String.eqb (Name a) "") then
          match headerEncoder col (Name a) with
          | Err err => Err err
          | Ok (colName, encoded) =>
              let buf := buf ++ bytesOf encoded in
              let '(colName, buf) :=
                if colName >? 76 then (0, buf ++ crlf) else (colName, buf) in
              let buf := buf ++ [SP] in
              let colName := wrap_int (colName + 1) in
              Ok buf
          end
        else Ok buf in
      match named with
      | Err err => Err err
      | Ok buf =>
          let addrPart := addressString (Address a) in
          let buf := buf ++ bytesOf addrPart in
          let col := wrap_int (col + len (bytesOf addrPart)) in
          joinAddresses headerEncoder (i + 1) col buf rest
      end
  end.

Definition EncodeAwareJoinAddress (headerEncoder : HeaderEncoder)
    (startColumn : Z) (addrs : list MailAddress) : Result string :=
  if len addrs =? 0 then Ok ""%string
  else joinAddresses headerEncoder 0 startColumn [] addrs.

Definition StringizeAddress (headerEncoder : HeaderEncoder)
    (startColumn : Z) (addr : MailAddress) : Result string :=
  EncodeAwareJoinAddress headerEncoder startColumn [addr].

(** ** Header Word Encoder *)

(** The method [Encode] of [flexibleHeaderEncoder], for the encoder and
    the part the factory stored. *)
Definition flexibleHeaderEncoder (e : EncoderView) (p : Part) : HeaderEncoder :=
  fun startColumn v =>
    let cs := if String.eqb (Charset p) "" then utf8 else Charset p in
    let v :=
      match viewTransferEncodingDeterminer e (bytesOf v) true with
      | TEBase64 => BEncode cs v
      | TEQuoted => QEncode cs v
      | TE7Bit => v
      end in
    Ok (wrap_int (startColumn + len (bytesOf v)), v).

Definition newFlexibleHeaderEncoder : HeaderEncoderFactory :=
  fun e p => Ok (flexibleHeaderEncoder e p).

(** [NewEncoder]: the encoder it returns is built from the defaults; the
    body does not mention [options]. *)
Definition NewEncoder (options : list EncoderOption) : Encoder :=
  {| transferEncodingDeterminer := SelectTransferEncoding;
     contentTypeDeterminer := fun p => TextContent p;
     boundaryGenerator := fun w => (("enmime-" ++ UUID w)%string, S w);
     headerEncoderFactory := newFlexibleHeaderEncoder |}.

(** [var DefaultEncoder = NewEncoder()] *)
Definition DefaultEncoder : Encoder := NewEncoder [].

(** ** Part Tree Serializer *)

(** [setupMIMEHeaders] determines the content transfer encoding,
    generates a boundary string if required, then sets the Content-Type
    and Content-Disposition headers. Its statements are given in five
    steps, in the order of the source; each returns the part as it
    leaves it. *)

(** The transfer encoding: [p.Header.Del(hnContentEncoding)] to the end
    of [if len(p.Content) > 0]. *)
Definition setupTransferEncoding (e : Encoder) (p : Part) : Part * TransferEncoding :=
  let p := setHeader (Header_Del hnContentEncoding (headerOf p)) p in
  if len (Content p) >? 0 then
    let '(p, cte) :=
      if contentTypeDeterminer e p then
        (if String.eqb (Charset p) "" then setCharset utf8 p else p,
         transferEncodingDeterminer e (Content p) false)
      else (p, TEBase64) in
    (* RFC 2045: 7bit is assumed if CTE header not present. *)
    match cte with
    | TEBase64 =>
        (setHeader (Header_Set hnContentEncoding cteBase64 (headerOf p)) p, cte)
    | TEQuoted =>
        (setHeader (Header_Set hnContentEncoding cteQuotedPrintable (headerOf p)) p,
         cte)
    | TE7Bit => (p, cte)
    end
  else (p, TE7Bit).

(** [if p.FirstChild != nil && p.Boundary == ""] *)
Definition setupBoundary (e : Encoder) (p : Part) (w : World) : Part * World :=
  if negb (len (Children p) =? 0) && String.eqb (Boundary p) "" then
    let '(b, w) := boundaryGenerator e w in (setBoundary b p, w)
  else (p, w).

(** [if p.ContentID != ""] *)
Definition setupContentID (p : Part) : Part :=
  if negb (String.eqb (ContentID p) "") then
    setHeader (Header_Set hnContentID (ToIDHeader (ContentID p)) (headerOf p)) p
  else p.

(** The parameters of the content type header. *)
Definition contentTypeParam (p : Part) : gmap string string :=
  let param : gmap string string := ∅ in
  let param := setParamValue param hpCharset (Charset p) in
  let param := setParamValue param hpName (ToASCII (FileName p)) in
  setParamValue param hpBoundary (Boundary p).

(** [if p.ContentType != ""] *)
Definition setupContentType (p : Part) : Part :=
  if negb (String.eqb (ContentType p) "") then
    let mt := FormatMediaType (ContentType p) (contentTypeParam p) in
    (* There was an error, FormatMediaType couldn't encode the params. *)
    let mt := if String.eqb mt "" then ContentType p else mt in
    setHeader (Header_Set hnContentType mt (headerOf p)) p
  else p.

(** The parameters of the disposition header. *)
Definition dispositionParam (p : Part) : gmap string string :=
  let param : gmap string string := ∅ in
  let param := setParamValue param hpFilename (ToASCII (FileName p)) in
  if negb (FileModDate p =? 0)
  then setParamValue param hpModDate (formatRFC822 (FileModDate p))
  else param.

(** [if p.Disposition != ""] *)
Definition setupDisposition (p : Part) : Part :=
  if negb (String.eqb (Disposition p) "") then
    let mt := FormatMediaType (Disposition p) (dispositionParam p) in
    let mt := if String.eqb mt "" then Disposition p else mt in
    setHeader (Header_Set hnContentDisposition mt (headerOf p)) p
  else p.

(** The part as the call leaves it, the transfer encoding it returns and
    the token source. *)
Definition setupMIMEHeaders (e : Encoder) (p : Part) (w : World)
    : Part * TransferEncoding * World :=
  let '(p, cte) := setupTransferEncoding e p in
  let '(p, w) := setupBoundary e p w in
  let p := setupContentID p in
  let p := setupContentType p in
  let p := setupDisposition p in
  (p, cte, w).

(** [sort.Strings]: ascending, bytewise. *)
Definition string_le (a b : string) : Prop := String.leb a b = true.

#[global] Instance string_le_dec (a b : string) : Decision (string_le a b).
Proof. unfold string_le. solve_decision. Defined.

Definition sortStrings (keys : list string) : list string :=
  merge_sort string_le keys.

(** The two-character string CRLF. *)
Definition crlfString : string := stringOf crnl.

(** One header line: [wb := stringutil.Wrap(76, k, ":_", encv, "\r\n")]
    and [wb[len(k)+1] = ' ']; an index out of range panics. (The length
    of a string is an [int] with room for one more.) *)
Definition headerLine (k encv : string) : Result bytes :=
  let wb := Wrap 76 [k; ":_"%string; encv; crlfString] in
  let i := len (bytesOf k) + 1 in
  if (0 <=? i) && (i <? len wb) then Ok (<[Z.to_nat i := SP]> wb)
  else Err "index out of range"%string.

(** [for _, v := range p.Header[k]] *)
Fixpoint encodeValues (headerEncoder : HeaderEncoder) (k : string)
    (vs : list string) (b : bytes) : Result bytes :=
  match vs with
  | [] => Ok b
  | v :: rest =>
      match headerEncoder 0 v with
      | Err err => Err err
      | Ok (_, encv) =>
          match headerLine k encv with
          | Err err => Err err
          | Ok wb => encodeValues headerEncoder k rest (b ++ wb)
          end
      end
  end.

(** [for _, k := range keys] *)
Fixpoint encodeKeys (headerEncoder : HeaderEncoder) (h : MIMEHeader)
    (keys : list string) (b : bytes) : Result bytes :=
  match keys with
  | [] => Ok b
  | k :: rest =>
      match encodeValues headerEncoder k (default [] (h !! k)) b with
      | Err err => Err err
      | Ok b => encodeKeys headerEncoder h rest b
      end
  end.

(** [encodeHeader] writes out a sorted list of headers; the result is
    what it appends to the buffer [b]. *)
Definition encodeHeader (e : Encoder) (p : Part) (b : bytes) : Result bytes :=
  let keys := sortStrings (map fst (map_to_list (headerOf p))) in
  match headerEncoderFactory e (viewOf e) p with
  | Err err => Err err
  | Ok headerEncoder => encodeKeys headerEncoder (headerOf p) keys b
  end.

(** [encodeContent] writes out the content in the selected encoding. The
    sink is a buffer in memory, whose writes do not fail. *)
Definition encodeContent (p : Part) (b : bytes) (cte : TransferEncoding) : bytes :=
  match cte with
  | TEBase64 => b ++ wrapBase64 (base64Encode (Content p))
  | TEQuoted => b ++ quotedPrintable (Content p)
  | TE7Bit => b ++ Content p
  end.

(** [endMarker := []byte("\r\n--" + p.Boundary + "--")] and
    [marker := endMarker[:len(endMarker)-2]] *)
Definition endMarkerOf (p : Part) : bytes :=
  bytesOf (crlfString ++ "--" ++ Boundary p ++ "--").
Definition markerOf (p : Part) : bytes :=
  firstn (Z.to_nat (len (endMarkerOf p) - 2)) (endMarkerOf p).

(** [if p.Header == nil { p.Header = make(textproto.MIMEHeader) }] *)
Definition ensureHeader (p : Part) : Part :=
  if Header p is None then setHeader ∅ p else p.

(** The loop [for c != nil] over the children, from the buffer [b];
    [encode] stands for the method [c.Encode] of [Part], which is defined
    from [Encode] below. *)
Definition encodeChildrenWith (encode : Part -> World -> Result (bytes * World))
    (marker : bytes) : list Part -> bytes -> World -> Result (bytes * World) :=
  fix loop (cs : list Part) (b : bytes) (w : World) {struct cs} :=
    match cs with
    | [] => Ok (b, w)
    | c :: cs =>
        (* b.Write(marker); b.Write(crnl); c.Encode(b) *)
        match encode c w with
        | Err err => Err err
        | Ok (cb, w) => loop cs (b ++ marker ++ crnl ++ cb) w
        end
    end.

(** The method [Encode] of [Encoder]: the bytes written to the sink and
    the token source afterwards, or the error returned. The loop over the
    children calls [c.Encode(b)], the method of [Part], which encodes
    with [DefaultEncoder]. *)
Fixpoint Encode (e : Encoder) (p : Part) (w : World) {struct p}
    : Result (bytes * World) :=
  match p with
  | mkPart _ _ _ _ _ _ _ _ _ children =>
      let p := ensureHeader p in
      let '(p, cte, w) := setupMIMEHeaders e p w in
      match encodeHeader e p [] with
      | Err err => Err err
      | Ok b =>
          let b := if len (Content p) >? 0
                   then encodeContent p (b ++ crnl) cte else b in
          match children with
          | [] => Ok (b, w)
          | _ :: _ =>
              match encodeChildrenWith (Encode DefaultEncoder) (markerOf p)
                      children b w with
              | Err err => Err err
              | Ok (b, w) => Ok (b ++ endMarkerOf p ++ crnl, w)
              end
          end
      end
  end.

(** [func (p *Part) Encode(writer io.Writer) error] *)
Definition Part_Encode (p : Part) (w : World) : Result (bytes * World) :=
  Encode DefaultEncoder p w.

(** The bytes a call has written, when it returned no error. *)
Definition written (r : Result (bytes * World)) : option bytes :=
  match r with Ok (b, _) => Some b | Err _ => None end.

(** ** Notions the properties are stated with *)

(** What [Encode] writes for the part itself, before its children: the
    header block and, for a part with content, a CRLF and the content. *)
Definition encodeOwn (e : Encoder) (p : Part) (cte : TransferEncoding)
    : Result bytes :=
  match encodeHeader e p [] with
  | Err err => Err err
  | Ok b => Ok (if len (Content p) >? 0 then encodeContent p (b ++ crnl) cte else b)
  end.

(** The encodings of the children of a part, each by [Part.Encode], in
    sibling order. *)
Fixpoint childEncodings (cs : list Part) (w : World)
    : Result (list bytes * World) :=
  match cs with
  | [] => Ok ([], w)
  | c :: cs =>
      match Part_Encode c w with
      | Err err => Err err
      | Ok (cb, w) =>
          match childEncodings cs w with
          | Err err => Err err
          | Ok (cbs, w) => Ok (cb :: cbs, w)
          end
      end
  end.

(** A multipart body: every child behind [marker] and CRLF, then the
    closing delimiter. *)
Definition multipartBody (marker : bytes) (subs : list bytes) : bytes :=
  concat (map (fun s => marker ++ crnl ++ s) subs)
  ++ marker ++ bytesOf "--" ++ crnl.
End Encoding.

(** The fields [setupMIMEHeaders] never assigns. *)
Definition sameInput (p q : Part) : Prop :=
  Content q = Content p /\ Children q = Children p
  /\ ContentType q = ContentType p /\ Disposition q = Disposition p
  /\ FileName q = FileName p /\ FileModDate q = FileModDate p
  /\ ContentID q = ContentID p.

(** *** Folded header lines *)

Definition noSpace (s : bytes) : bool :=
  forallb (fun c => negb (Ascii.eqb c SP)) s.

Definition noLineBreak (s : bytes) : bool :=
  forallb (fun c => negb (isLineBreak c)) s.

(** Lines, with a CRLF between one line and the next. *)
Definition joinLines (lines : list bytes) : bytes :=
  match lines with
  | [] => []
  | l :: ls => l ++ concat (map (fun x => crnl ++ x) ls)
  end.

(** The words, with a suffix at the end of the last one. *)
Fixpoint attachLast (sfx : bytes) (words : list bytes) : list bytes :=
  match words with
  | [] => []
  | w :: rest =>
      match rest with
      | [] => [w ++ sfx]
      | _ :: _ => w :: attachLast sfx rest
      end
  end.

(** The physical lines of a folded line that begins with [cur] and goes
    on with [words], when the last word is followed by [trail] more
    characters on its line. *)
Fixpoint foldedLines (max trail : Z) (cur : bytes) (words : list bytes)
    : list bytes :=
  match words with
  | [] => [cur]
  | w :: rest =>
      if len cur + 1 + len w + (if rest is [] then trail else 0) >? max
      then cur :: foldedLines max trail (SP :: w) rest
      else foldedLines max trail (cur ++ SP :: w) rest
  end.

(** The header values in the order [encodeHeader] writes them: by sorted
    key, and for one key in the order of its values. *)
Definition headerPairs (h : MIMEHeader) : list (string * string) :=
  flat_map (fun k => map (pair k) (default [] (h !! k)))
           (sortStrings (map fst (map_to_list h))).

(** [line] is the header line of name [k] and encoded value [encv],
    folded: its physical lines are [first :: conts], each ended by CRLF;
    taking the CRLFs away gives back the name, a colon, a space and the
    value; the first line begins with the name, the colon and the space;
    each continuation line begins with a space; and a physical line is
    longer than 76 characters only if it has no space to fold at, after
    the space that begins it. *)
Definition foldedHeaderLine (k encv : string) (line : bytes) : Prop :=
  exists (first : bytes) (conts : list bytes),
    line = concat (map (fun l => l ++ crnl) (first :: conts))
    /\ physicalLines line = first :: conts ++ [[]]
    /\ first ++ concat conts = bytesOf k ++ bytesOf ": " ++ bytesOf encv
    /\ (exists t, first = bytesOf k ++ bytesOf ": " ++ t
                  /\ (len first <= 76 \/ noSpace t = true))
    /\ Forall (fun l => exists u, l = SP :: u
                                  /\ (len l <= 76 \/ noSpace u = true)) conts.

(** A name with no space and no line break, and an encoded value with no
    line break. *)
Definition cleanPair (headerEncoder : HeaderEncoder) (kv : string * string) : bool :=
  noSpace (bytesOf kv.1) && noLineBreak (bytesOf kv.1)
  && match headerEncoder 0 kv.2 with
     | Ok (_, encv) => noLineBreak (bytesOf encv)
     | Err _ => true
     end.

Definition cleanHeaders (headerEncoder : HeaderEncoder) (h : MIMEHeader) : bool :=
  forallb (cleanPair headerEncoder) (headerPairs h).

(** [line] is the folded header line of the name and the encoded value of
    a header value. *)
Definition writtenAs (headerEncoder : HeaderEncoder) (kv : string * string)
    (line : bytes) : Prop :=
  exists (col : Z) (encv : string),
    headerEncoder 0 kv.2 = Ok (col, encv) /\ foldedHeaderLine kv.1 encv line.

(** The bound on physical lines with the exception for long tokens only:
    a line has at most 76 characters, or holds a token (a word between
    spaces) of more than 76. *)
Definition linesWithinOrLongToken (text : bytes) : bool :=
  forallb (fun l => (len l <=? 76) || existsb (fun w => 76 <? len w) (splitWords l))
          (physicalLines text).

(** ** A concrete environment *)

(** An environment on which the encoder can be run. Each function follows
    its original on the inputs used below (ASCII file names and
    identifiers, encoded words and quoted-printable lines that need no
    split); the theorems about the encoder hold in every environment. *)
Module Env.

(** RFC 2045 reads a missing content type as text/plain; text and
    multipart types take the text encodings. *)
Definition TextContent (p : Part) : bool :=
  String.eqb (ContentType p) ""
  || String.prefix "text/" (ContentType p)
  || String.prefix "multipart/" (ContentType p).

Definition upperhex : bytes := bytesOf "0123456789ABCDEF".

Definition hexByte (c : byte) : bytes :=
  [nth (N.to_nat (N_of_ascii c / 16)) upperhex "0"%char;
   nth (N.to_nat (N_of_ascii c mod 16)) upperhex "0"%char].

Definition isTSpecial (c : byte) : bool :=
  existsb (Ascii.eqb c) ("034"%char :: bytesOf "()<>@,;:\/[]?=").

Definition isTokenChar (c : byte) : bool :=
  (32 <? N_of_ascii c)%N && (N_of_ascii c <? 127)%N && negb (isTSpecial c).

Definition isToken (s : string) : bool :=
  negb (String.eqb s "") && forallb isTokenChar (bytesOf s).

Definition toLowerString (s : string) : string :=
  stringOf (map toLower (bytesOf s)).

Definition needsEncoding (s : string) : bool :=
  existsb outsidePrintable (bytesOf s).

Definition percentEncode (c : byte) : bytes :=
  if (N_of_ascii c <=? 32)%N || (127 <=? N_of_ascii c)%N
     || existsb (Ascii.eqb c) (bytesOf "*'%") || isTSpecial c
  then "%"%char :: hexByte c else [c].

Definition quoteEscape (c : byte) : bytes :=
  if Ascii.eqb c "034" || Ascii.eqb c "\" then ["\"%char; c] else [c].

Definition formatParam (attribute value : string) : option bytes :=
  if negb (isToken attribute) then None
  else
    let name := bytesOf "; " ++ bytesOf (toLowerString attribute) in
    if needsEncoding value then
      Some (name ++ bytesOf "*=utf-8''" ++ concat (map percentEncode (bytesOf value)))
    else if isToken value then Some (name ++ "="%char :: bytesOf value)
    else Some (name ++ "="%char :: "034"%char
                 :: concat (map quoteEscape (bytesOf value)) ++ ["034"%char]).

Fixpoint formatParams (param : gmap string string) (attrs : list string)
    : option bytes :=
  match attrs with
  | [] => Some []
  | a :: rest =>
      match formatParam a (default ""%string (param !! a)), formatParams param rest with
      | Some x, Some y => Some (x ++ y)
      | _, _ => None
      end
  end.

(** The text before and after the first occurrence of a byte. *)
Fixpoint cut (sep : byte) (s : bytes) : option (bytes * bytes) :=
  match s with
  | [] => None
  | c :: t =>
      if Ascii.eqb c sep then Some ([], t)
      else match cut sep t with
           | Some (a, b) => Some (c :: a, b)
           | None => None
           end
  end.

Definition FormatMediaType (t : string) (param : gmap string string) : string :=
  let head :=
    match cut "/" (bytesOf t) with
    | None => if isToken t then Some (toLowerString t) else None
    | Some (major, sub) =>
        if isToken (stringOf major) && isToken (stringOf sub)
        then Some (toLowerString (stringOf major) ++ "/"
                     ++ toLowerString (stringOf sub))%string
        else None
    end in
  match head, formatParams param (sortStrings (map fst (map_to_list param))) with
  | Some h, Some ps => (h ++ stringOf ps)%string
  | _, _ => ""%string
  end.

Definition qEscape (c : byte) : bytes :=
  if Ascii.eqb c SP then ["_"%char]
  else if outsidePrintable c || Ascii.eqb c TAB
          || existsb (Ascii.eqb c) (bytesOf "=?_")
  then "="%char :: hexByte c else [c].

Definition encodedWord (cs : string) (scheme : byte) (text : bytes) : string :=
  stringOf (bytesOf "=?" ++ bytesOf cs ++ "?"%char :: scheme :: "?"%char
              :: text ++ bytesOf "?=").

Definition BEncode (cs v : string) : string :=
  if needsEncoding v then encodedWord cs "b" (base64Encode (bytesOf v)) else v.

Definition QEncode (cs v : string) : string :=
  if needsEncoding v then encodedWord cs "q" (concat (map qEscape (bytesOf v)))
  else v.

Definition qpEscape (c : byte) : bytes :=
  if (outsidePrintable c && negb (isLineBreak c)) || Ascii.eqb c "="
  then "="%char :: hexByte c else [c].

Definition quotedPrintable (content : bytes) : bytes :=
  concat (map qpEscape content).

Definition digit (n : nat) : byte := ascii_of_nat (48 + n mod 10).

(** A token for every draw, different from draw to draw. *)
Definition UUID (w : World) : string :=
  stringOf (bytesOf "00000000-0000-4000-8000-000000000" ++
            map digit [w / 100; w / 10; w])%nat.

End Env.

(** The environment made of them. *)
#[global] Instance stdExternals : Externals := {|
  TextContent := Env.TextContent;
  ToASCII := fun s => s;
  ToIDHeader := fun s => ("<" ++ s ++ ">")%string;
  UUID := Env.UUID;
  FormatMediaType := Env.FormatMediaType;
  formatRFC822 := fun _ => "01 Jan 70 00:00 UTC"%string;
  BEncode := Env.BEncode;
  QEncode := Env.QEncode;
  quotedPrintable := Env.quotedPrintable;
  addressString := fun a => ("<" ++ a ++ ">")%string
|}.

(** ** Further notions *)

(** Printable ASCII or tab: what a header value may hold unencoded. *)
Definition printableOrTab (b : byte) : bool :=
  let n := N_of_ascii b in
  ((32 <=? n)%N && (n <=? 126)%N) || (n =? 9)%N.

(** The weight of a transfer encoding: 7bit, then quoted-printable, then
    base64. *)
Definition teRank (te : TransferEncoding) : Z :=
  match te with TE7Bit => 0 | TEQuoted => 1 | TEBase64 => 2 end.

(** The charset a header word is encoded with. *)
Definition wordCharset (p : Part) : string :=
  if String.eqb (Charset p) "" then utf8 else Charset p.

(** The value [setupMIMEHeaders] gives the transfer-encoding header for
    an encoding: none for 7bit. *)
Definition cteHeaderValue (cte : TransferEncoding) : option (list string) :=
  match cte with
  | TE7Bit => None
  | TEQuoted => Some [cteQuotedPrintable]
  | TEBase64 => Some [cteBase64]
  end.

(** A formatted media type, or the bare type when formatting failed. *)
Definition mediaTypeOrBare {ext : Externals} (t : string)
    (param : gmap string string) : string :=
  if String.eqb (FormatMediaType t param) "" then t else FormatMediaType t param.



(** [JoinAddress] of addr.go; [str] is the method [String] of
    [mail.Address], of Go's library. [joinPlain] is the [for i, a :=
    range addrs] loop from index [i] on, with the contents of [buf]. *)
Fixpoint joinPlain (str : MailAddress -> string) (i : Z) (buf : bytes)
    (addrs : list MailAddress) : string :=
  match addrs with
  | [] => stringOf buf
  | a :: rest =>
      let buf := if i >? 0 then buf ++ bytesOf ", " else buf in
      joinPlain str (i + 1) (buf ++ bytesOf (str a)) rest
  end.

Definition JoinAddress (str : MailAddress -> string)
    (addrs : list MailAddress) : string :=
  if len addrs =? 0 then ""%string else joinPlain str 0 [] addrs.

(** An address as [EncodeAwareJoinAddress] writes it when the display
    name is encoded as [word] gives it: the encoded name and a space,
    if there is a name, then the address in angle brackets. *)
Definition encodedAddress {ext : Externals} (word : string -> string)
    (a : MailAddress) : string :=
  ((if String.eqb (Name a) "" then "" else word (Name a) ++ " ")
   ++ addressString (Address a))%string.
(** ** Inputs of the examples *)

Module Sample.

(** [p := &enmime.Part{}; p.Content = []byte("No header, only content.")] *)
Definition contentOnly : Part :=
  mkPart None (bytesOf "No header, only content.") "" "" "" "" 0 "" "" [].

(** A classifier that is not [SelectTransferEncoding]. *)
Definition alwaysBase64 : bytes -> bool -> TransferEncoding :=
  fun _ _ => TEBase64.

(** A display name of 70 letters. *)
Definition longName : string :=
  "aaaaaaaaaaaaaaaaaaaaaaaaaaaaaaaaaaaaaaaaaaaaaaaaaaaaaaaaaaaaaaaaaaaaaa".

Definition twoAddresses : list MailAddress :=
  [mkAddress longName "a@x.com"; mkAddress "" "b@y.com"].

(** The header encoder of the default encoder, for a part with no
    charset. *)
Definition defaultHeaderEncoder : HeaderEncoder :=
  flexibleHeaderEncoder (viewOf DefaultEncoder) emptyPart.

(** [enmime.NewPart(parent, contentType)], as far as the encoder reads
    the part. *)
Definition NewPart (contentType : string) : Part :=
  mkPart (Some ∅) [] contentType "" "" "" 0 "" "" [].

Definition withContent (content : string) (p : Part) : Part :=
  mkPart (Header p) (bytesOf content) (ContentType p) (Charset p)
         (Disposition p) (FileName p) (FileModDate p) (ContentID p)
         (Boundary p) (Children p).

Definition withChildren (children : list Part) (p : Part) : Part :=
  mkPart (Header p) (Content p) (ContentType p) (Charset p)
         (Disposition p) (FileName p) (FileModDate p) (ContentID p)
         (Boundary p) children.

Definition htmlChild : Part :=
  withContent "<div>HTML part</div>" (NewPart "text/html").
Definition plainChild : Part :=
  withContent "Plain text part" (NewPart "text/plain").

(** The tree of [TestEncodePartWithChildren]. *)
Definition multipart : Part :=
  withChildren [htmlChild; plainChild]
    (setBoundary "enmime-1234567890-parent"
       (withContent "Do you even MIME bro?" (NewPart "multipart/alternative"))).

(** The default encoder with another classifier. *)
Definition base64Encoder : Encoder :=
  WithTransferEncodingDeterminer alwaysBase64 DefaultEncoder.

(** A part with one header, a subject of 70 letters. *)
Definition longSubject : Part :=
  mkPart (Some {["Subject"%string := [longName]]}) [] "" "" "" "" 0 "" "" [].

(** The tree of the test as [setupMIMEHeaders] leaves its root, and the
    header encoder made for it. *)
Definition multipartSetUp : Part :=
  (setupMIMEHeaders DefaultEncoder (ensureHeader multipart) 0%nat).1.1.
Definition multipartHeaderEncoder : HeaderEncoder :=
  flexibleHeaderEncoder (viewOf DefaultEncoder) multipartSetUp.

(** A part whose content type and disposition carry parameters of
    their own, which [mime.FormatMediaType] does not accept in a
    type. *)
Definition unformattable : Part :=
  mkPart (Some ∅) (bytesOf "x") "text/plain; charset=us-ascii" ""
         "attachment; filename=a.txt" "" 0 "" "" [].
End Sample.

(** * Properties *)

(** ** The classifier *)

Lemma nonPlain_outsidePrintable (q : bool) (b : byte) :
  nonPlain q b = outsidePrintable b && negb (negb q && isLineBreak b).
Proof. destruct q, b as [[] [] [] [] [] [] [] []]; reflexivity. Qed.

Lemma nonPlain_plainOrLineBreak (b : byte) :
  nonPlain false b = negb (plainOrLineBreak b).
Proof. destruct b as [[] [] [] [] [] [] [] []]; reflexivity. Qed.

Lemma nonPlainCount_cons (q : bool) (b : byte) (content : bytes) :
  nonPlainCount q (b :: content)
  = (if nonPlain q b then 1 else 0) + nonPlainCount q content.
Proof.
  unfold nonPlainCount, len. cbn [List.filter].
  destruct (nonPlain q b); cbn [length]; lia.
Qed.

Lemma nonPlainCount_nonneg (q : bool) (content : bytes) :
  0 <= nonPlainCount q content.
Proof. unfold nonPlainCount, len. lia. Qed.

(** The loop invariant: as long as the loop runs, the count is zero or
    below the threshold, and then the loop returns the verdict on the
    total count. *)
Lemma scanContent_verdict (q : bool) (threshold : Z) (content : bytes) :
  forall bincount,
    0 <= bincount ->
    bincount = 0 \/ bincount < threshold ->
    scanContent q threshold bincount content
    = verdict threshold (bincount + nonPlainCount q content).
Proof.
  induction content as [|b rest IH]; intros n Hn Hlow.
  - cbn [scanContent]. unfold nonPlainCount, len, verdict. cbn.
    rewrite Z.add_0_r. destruct (Z.eqb_spec n 0) as [|Hz]; [reflexivity|].
    destruct (Z.geb_spec n threshold); [lia | reflexivity].
  - cbn [scanContent]. rewrite nonPlainCount_cons, nonPlain_outsidePrintable.
    destruct (outsidePrintable b); cbn [andb].
    + destruct (negb q && isLineBreak b); cbn [negb].
      * rewrite IH by assumption. reflexivity.
      * destruct (Z.geb_spec (n + 1) threshold) as [Hge|Hlt].
        -- pose proof (nonPlainCount_nonneg q rest). unfold verdict.
           destruct (Z.eqb_spec (n + (1 + nonPlainCount q rest)) 0); [lia|].
           destruct (Z.geb_spec (n + (1 + nonPlainCount q rest)) threshold);
             [reflexivity | lia].
        -- rewrite IH by lia. f_equal. lia.
    + rewrite IH by assumption. reflexivity.
Qed.

Lemma SelectTransferEncoding_verdict (content : bytes) (q : bool) :
  SelectTransferEncoding content q
  = verdict (b64Threshold content) (nonPlainCount q content).
Proof.
  unfold SelectTransferEncoding.
  destruct (Z.eqb_spec (len content) 0) as [Hz|Hnz].
  - destruct content; [reflexivity | unfold len in Hz; cbn in Hz; lia].
  - rewrite scanContent_verdict by lia. reflexivity.
Qed.

(** C5: for every byte string, the empty one included,
    [SelectTransferEncoding c false] is [TE7Bit] exactly when every byte
    of [c] is printable ASCII (0x20 to 0x7E), a tab, a CR or an LF. *)
Theorem C5_identity_iff_plain (c : bytes) :
  SelectTransferEncoding c false = TE7Bit
  <-> Forall (fun b => plainOrLineBreak b = true) c.
Proof.
  rewrite SelectTransferEncoding_verdict. unfold verdict.
  assert (Hcount : nonPlainCount false c = 0
                   <-> Forall (fun b => plainOrLineBreak b = true) c).
  { induction c as [|b rest IH].
    - split; [constructor | reflexivity].
    - rewrite nonPlainCount_cons, nonPlain_plainOrLineBreak.
      pose proof (nonPlainCount_nonneg false rest).
      split.
      + intros Hsum. destruct (plainOrLineBreak b) eqn:Hb; cbn in Hsum; [|lia].
        constructor; [assumption | apply IH; lia].
      + intros Hall. inversion Hall as [|? ? Hb Hrest]; subst.
        rewrite Hb. cbn. apply IH in Hrest. lia. }
  destruct (Z.eqb_spec (nonPlainCount false c) 0) as [Hz|Hnz].
  - split; [intros _; apply Hcount, Hz | reflexivity].
  - split.
    + destruct (nonPlainCount false c >=? b64Threshold c); discriminate.
    + intros Hall. apply Hcount in Hall. contradiction.
Qed.

(** C6: the early exit never changes the classification. For every
    content and every value of the quote-line-breaks flag,
    [SelectTransferEncoding] returns what the variant returns that scans
    every byte before it decides: Identity when the total non-plain count
    is zero, Base64 when it is nonzero and at least the truncated
    threshold, QuotedPrintable otherwise. *)
Theorem C6_early_exit_is_full_scan (content : bytes) (quoteLineBreaks : bool) :
  SelectTransferEncoding content quoteLineBreaks
  = SelectTransferEncoding_fullscan content quoteLineBreaks.
Proof.
  rewrite SelectTransferEncoding_verdict.
  unfold SelectTransferEncoding_fullscan, verdict. reflexivity.
Qed.

(** ** Base64 *)

Lemma lor_disjoint_add (x y k : Z) :
  0 <= k -> x mod 2 ^ k = 0 -> 0 <= y < 2 ^ k -> Z.lor x y = x + y.
Proof.
  intros Hk Hx Hy.
  assert (Hland : Z.land x y = 0).
  { apply Z.bits_inj'. intros n Hn. rewrite Z.land_spec, Z.bits_0.
    destruct (Z.lt_ge_cases n k) as [Hlt|Hge].
    - assert (Hmul : x = x / 2 ^ k * 2 ^ k).
      { pose proof (Z.div_mod x (2 ^ k)). lia. }
      rewrite Hmul, Z.mul_pow2_bits_low by assumption. reflexivity.
    - rewrite <- (Z.mod_small y (2 ^ k)) by assumption.
      rewrite Z.mod_pow2_bits_high by lia. apply andb_false_r. }
  rewrite Z.add_nocarry_lxor, Z.lxor_lor by assumption. reflexivity.
Qed.

Lemma byteVal_range (b : byte) : 0 <= byteVal b < 256.
Proof. unfold byteVal. pose proof (N_ascii_bounded b). lia. Qed.

Lemma byteOf_byteVal (b : byte) (z : Z) : z mod 256 = byteVal b -> byteOf z = b.
Proof.
  intros Hz. unfold byteOf. change 255 with (Z.ones 8).
  rewrite Z.land_ones by lia. change (2 ^ 8) with 256. rewrite Hz.
  unfold byteVal. rewrite N2Z.id. apply ascii_N_embedding.
Qed.

Lemma sextet_spec (v k : Z) :
  0 <= k -> Z.land (Z.shiftr v k) 63 = (v / 2 ^ k) mod 64.
Proof.
  intros Hk. change 63 with (Z.ones 6).
  rewrite Z.land_ones, Z.shiftr_div_pow2 by lia. reflexivity.
Qed.

Lemma sextet0_spec (v : Z) : Z.land v 63 = v mod 64.
Proof. change 63 with (Z.ones 6). rewrite Z.land_ones by lia. reflexivity. Qed.

Lemma val3_spec (b0 b1 b2 : Z) :
  0 <= b0 < 256 -> 0 <= b1 < 256 -> 0 <= b2 < 256 ->
  Z.lor (Z.lor (Z.shiftl b0 16) (Z.shiftl b1 8)) b2
  = b0 * 65536 + b1 * 256 + b2.
Proof.
  intros H0 H1 H2. rewrite !Z.shiftl_mul_pow2 by lia.
  change (2 ^ 16) with 65536. change (2 ^ 8) with 256.
  rewrite (lor_disjoint_add (b0 * 65536) (b1 * 256) 16);
    [| lia | change (2 ^ 16) with 65536; Z.div_mod_to_equations; lia
     | change (2 ^ 16) with 65536; lia].
  rewrite (lor_disjoint_add (b0 * 65536 + b1 * 256) b2 8);
    [| lia | change (2 ^ 8) with 256; Z.div_mod_to_equations; lia
     | change (2 ^ 8) with 256; lia].
  reflexivity.
Qed.

Lemma val2_spec (b0 b1 : Z) :
  0 <= b0 < 256 -> 0 <= b1 < 256 ->
  Z.lor (Z.shiftl b0 16) (Z.shiftl b1 8) = b0 * 65536 + b1 * 256.
Proof.
  intros H0 H1. pose proof (val3_spec b0 b1 0 H0 H1 ltac:(lia)) as H.
  rewrite Z.lor_0_r in H. lia.
Qed.

Lemma join4_spec (i0 i1 i2 i3 : Z) :
  0 <= i0 < 64 -> 0 <= i1 < 64 -> 0 <= i2 < 64 -> 0 <= i3 < 64 ->
  Z.lor (Z.lor (Z.lor (Z.shiftl i0 18) (Z.shiftl i1 12)) (Z.shiftl i2 6)) i3
  = i0 * 262144 + i1 * 4096 + i2 * 64 + i3.
Proof.
  intros H0 H1 H2 H3. rewrite !Z.shiftl_mul_pow2 by lia.
  change (2 ^ 18) with 262144. change (2 ^ 12) with 4096.
  change (2 ^ 6) with 64.
  rewrite (lor_disjoint_add (i0 * 262144) (i1 * 4096) 18);
    [| lia | change (2 ^ 18) with 262144; Z.div_mod_to_equations; lia
     | change (2 ^ 18) with 262144; lia].
  rewrite (lor_disjoint_add (i0 * 262144 + i1 * 4096) (i2 * 64) 12);
    [| lia | change (2 ^ 12) with 4096; Z.div_mod_to_equations; lia
     | change (2 ^ 12) with 4096; lia].
  rewrite (lor_disjoint_add (i0 * 262144 + i1 * 4096 + i2 * 64) i3 6);
    [| lia | change (2 ^ 6) with 64; Z.div_mod_to_equations; lia
     | change (2 ^ 6) with 64; lia].
  reflexivity.
Qed.

Lemma join3_spec (i0 i1 i2 : Z) :
  0 <= i0 < 64 -> 0 <= i1 < 64 -> 0 <= i2 < 64 ->
  Z.lor (Z.lor (Z.shiftl i0 18) (Z.shiftl i1 12)) (Z.shiftl i2 6)
  = i0 * 262144 + i1 * 4096 + i2 * 64.
Proof.
  intros H0 H1 H2. pose proof (join4_spec i0 i1 i2 0 H0 H1 H2 ltac:(lia)) as H.
  rewrite Z.lor_0_r in H. lia.
Qed.

Lemma join2_spec (i0 i1 : Z) :
  0 <= i0 < 64 -> 0 <= i1 < 64 ->
  Z.lor (Z.shiftl i0 18) (Z.shiftl i1 12) = i0 * 262144 + i1 * 4096.
Proof.
  intros H0 H1. pose proof (join3_spec i0 i1 0 H0 H1 ltac:(lia)) as H.
  change (Z.shiftl 0 6) with 0 in H. rewrite Z.lor_0_r in H. lia.
Qed.

(** The alphabet has 64 different characters, none of them the padding
    character or a line break. *)
Lemma decodeAt_encodeAt (i : Z) : 0 <= i < 64 -> decodeAt (encodeAt i) = Some i.
Proof.
  intros Hi. assert (Hn : i = Z.of_nat (Z.to_nat i)) by lia.
  assert (Hlt : (Z.to_nat i < 64)%nat) by lia.
  rewrite Hn at 2. unfold encodeAt. generalize dependent (Z.to_nat i).
  intros n _ Hlt. clear i Hi.
  do 64 (destruct n as [|n]; [reflexivity|]). lia.
Qed.

Lemma encodeAt_notPad (i : Z) : 0 <= i < 64 -> Ascii.eqb (encodeAt i) padChar = false.
Proof.
  intros Hi. assert (Hlt : (Z.to_nat i < 64)%nat) by lia.
  unfold encodeAt. generalize dependent (Z.to_nat i). intros n Hlt. clear i Hi.
  do 64 (destruct n as [|n]; [reflexivity|]). lia.
Qed.

Lemma encodeAt_isBase64Char (i : Z) : 0 <= i < 64 -> isBase64Char (encodeAt i) = true.
Proof.
  intros Hi. assert (Hlt : (Z.to_nat i < 64)%nat) by lia.
  unfold encodeAt. generalize dependent (Z.to_nat i). intros n Hlt. clear i Hi.
  do 64 (destruct n as [|n]; [reflexivity|]). lia.
Qed.

Lemma isBase64Char_notLineBreak (c : byte) :
  isBase64Char c = true -> isLineBreak c = false.
Proof. destruct c as [[] [] [] [] [] [] [] []]; cbv; congruence. Qed.

Lemma sextet_range (v k : Z) : 0 <= k -> 0 <= Z.land (Z.shiftr v k) 63 < 64.
Proof. intros Hk. rewrite sextet_spec by assumption. apply Z.mod_pos_bound. lia. Qed.

Lemma sextet0_range (v : Z) : 0 <= Z.land v 63 < 64.
Proof. rewrite sextet0_spec. apply Z.mod_pos_bound. lia. Qed.

(** Induction on a byte string in steps of three, as the encoder reads. *)
Lemma bytes_ind3 (P : bytes -> Prop) :
  P [] -> (forall a, P [a]) -> (forall a b, P [a; b]) ->
  (forall a b c rest, P rest -> P (a :: b :: c :: rest)) ->
  forall s, P s.
Proof.
  intros H0 H1 H2 H3.
  assert (Hall : forall s, P s /\ (forall a, P (a :: s)) /\ (forall a b, P (a :: b :: s))).
  { induction s as [|c rest [IH0 [IH1 IH2]]].
    - repeat split; auto.
    - repeat split; auto. }
  intros s. apply Hall.
Qed.

Lemma base64Encode_chars (src : bytes) :
  Forall (fun c => isBase64Char c = true) (base64Encode src).
Proof.
  induction src as [| a | a b | a b c rest IH] using bytes_ind3;
    cbn [base64Encode];
    repeat (constructor;
            [first [ apply encodeAt_isBase64Char;
                     first [apply sextet_range; lia | apply sextet0_range]
                   | reflexivity ] |]);
    first [assumption | constructor].
Qed.

(** Decoding inverts encoding. *)
Lemma base64Decode_base64Encode (src : bytes) :
  base64Decode (base64Encode src) = Some src.
Proof.
  induction src as [| a | a b | a b c rest IH] using bytes_ind3.
  - reflexivity.
  - cbn [base64Encode base64Decode].
    rewrite !decodeAt_encodeAt by (apply sextet_range; lia).
    cbn [Ascii.eqb padChar]. change (Ascii.eqb "="%char "="%char) with true.
    cbn [andb]. pose proof (byteVal_range a) as Ha.
    rewrite join2_spec by (apply sextet_range; lia).
    rewrite !sextet_spec by lia. rewrite !Z.shiftl_mul_pow2, Z.shiftr_div_pow2 by lia.
    change (2 ^ 16) with 65536. change (2 ^ 18) with 262144.
    change (2 ^ 12) with 4096.
    do 2 f_equal. apply byteOf_byteVal. Z.div_mod_to_equations. lia.
  - cbn [base64Encode base64Decode].
    rewrite !decodeAt_encodeAt by (apply sextet_range; lia).
    change (Ascii.eqb padChar padChar) with true. cbn [andb].
    rewrite encodeAt_notPad by (apply sextet_range; lia).
    pose proof (byteVal_range a) as Ha. pose proof (byteVal_range b) as Hb.
    rewrite join3_spec by (apply sextet_range; lia).
    rewrite val2_spec by assumption.
    rewrite !sextet_spec by lia. rewrite !Z.shiftr_div_pow2 by lia.
    change (2 ^ 16) with 65536. change (2 ^ 18) with 262144.
    change (2 ^ 12) with 4096. change (2 ^ 8) with 256. change (2 ^ 6) with 64.
    f_equal. f_equal; [| f_equal]; apply byteOf_byteVal;
      Z.div_mod_to_equations; lia.
  - cbn [base64Encode base64Decode].
    rewrite !decodeAt_encodeAt
      by first [apply sextet_range; lia | apply sextet0_range].
    rewrite (encodeAt_notPad (Z.land _ 63)) by apply sextet0_range.
    cbn [andb]. rewrite IH.
    pose proof (byteVal_range a) as Ha. pose proof (byteVal_range b) as Hb.
    pose proof (byteVal_range c) as Hc.
    rewrite join4_spec
      by first [apply sextet_range; lia | apply sextet0_range].
    rewrite val3_spec by assumption.
    rewrite !sextet_spec by lia. rewrite sextet0_spec.
    rewrite !Z.shiftr_div_pow2 by lia.
    change (2 ^ 16) with 65536. change (2 ^ 18) with 262144.
    change (2 ^ 12) with 4096. change (2 ^ 8) with 256. change (2 ^ 6) with 64.
    f_equal. f_equal; [| f_equal; [| f_equal]]; apply byteOf_byteVal;
      Z.div_mod_to_equations; lia.
Qed.

Lemma wrapLoop_nil (fuel : nat) (lineLen : Z) : wrapLoop fuel lineLen [] = [].
Proof. destruct fuel; reflexivity. Qed.

(** With fuel for every character, the loop writes the text in lines of
    76 characters, the last one possibly shorter, each with its CRLF. *)
Lemma wrapLoop_lines (fuel : nat) :
  forall text : bytes,
    (length text < fuel)%nat ->
    exists lines : list bytes,
      wrapLoop fuel 76 text = concat (map (fun l => l ++ crnl) lines)
      /\ concat lines = text
      /\ Forall (fun l => length l = 76%nat) (removelast lines)
      /\ Forall (fun l => (0 < length l <= 76)%nat) lines.
Proof.
  induction fuel as [|fuel IH]; intros text Hfuel; [lia|].
  destruct text as [|c text'] eqn:Etext.
  { exists []. repeat split; constructor. }
  rewrite <- Etext in *. assert (Hpos : 0 < len text) by (subst; unfold len; cbn; lia).
  cbn [wrapLoop]. destruct (Z.gtb_spec (len text) 0) as [_|]; [|lia].
  destruct (Z.gtb_spec 76 (len text)) as [Hshort|Hlong].
  - exists [text]. unfold len. rewrite Nat2Z.id, firstn_all, skipn_all, wrapLoop_nil.
    cbn [map concat removelast]. rewrite !app_nil_r. repeat split.
    + constructor.
    + constructor; [|constructor]. unfold len in *. lia.
  - change (Z.to_nat 76) with 76%nat.
    assert (Hlen : (76 <= length text)%nat) by (unfold len in *; lia).
    destruct (IH (skipn 76 text)) as (lines & Hout & Hcat & Hfull & Hall).
    { rewrite length_skipn. lia. }
    exists (firstn 76 text :: lines). rewrite Hout. cbn [map concat].
    rewrite Hcat, firstn_skipn, <- !app_assoc.
    assert (Hfirst : length (firstn 76 text) = 76%nat)
      by (rewrite length_firstn; lia).
    repeat split.
    + destruct lines; cbn [removelast]; constructor; assumption.
    + constructor; [lia | assumption].
Qed.

Lemma stripCRLF_lines (lines : list bytes) :
  Forall (fun l => Forall (fun c => isBase64Char c = true) l) lines ->
  stripCRLF (concat (map (fun l => l ++ crnl) lines)) = concat lines.
Proof.
  induction 1 as [|l lines Hl _ IH]; [reflexivity|].
  cbn [map concat]. unfold stripCRLF in *.
  rewrite <- app_assoc, !List.filter_app, IH. f_equal.
  induction Hl as [|c l Hc _ IHl]; [reflexivity|].
  cbn [List.filter]. rewrite (isBase64Char_notLineBreak c Hc). cbn [negb].
  f_equal. exact IHl.
Qed.

Lemma Forall_concat_inv {A} (P : A -> Prop) (ls : list (list A)) :
  Forall P (concat ls) -> Forall (Forall P) ls.
Proof.
  induction ls as [|l ls IH]; cbn [concat]; intros H; [constructor|].
  apply Forall_app in H as [Hl Hls]. constructor; auto.
Qed.

(** C7: for every non-empty content, the base64 branch of
    [encodeContent] writes standard-alphabet base64 text in lines, each
    terminated by CRLF, where every line except possibly the last has
    exactly 76 characters (and none has more, nor is empty); stripping
    the CRLFs and decoding the rest gives back the content. *)
Theorem C7_base64_lines_round_trip {ext : Externals} (p : Part) (b : bytes) :
  Content p <> [] ->
  exists lines : list bytes,
    encodeContent p b TEBase64 = b ++ concat (map (fun l => l ++ crnl) lines)
    /\ lines <> []
    /\ Forall (fun l => Forall (fun c => isBase64Char c = true) l) lines
    /\ Forall (fun l => length l = 76%nat) (removelast lines)
    /\ Forall (fun l => (0 < length l <= 76)%nat) lines
    /\ base64Decode (stripCRLF (concat (map (fun l => l ++ crnl) lines)))
       = Some (Content p).
Proof.
  intros Hne. cbn [encodeContent]. unfold wrapBase64.
  destruct (wrapLoop_lines (S (length (base64Encode (Content p))))
              (base64Encode (Content p)) ltac:(lia))
    as (lines & Hout & Hcat & Hfull & Hall).
  assert (Hchars : Forall (fun l => Forall (fun c => isBase64Char c = true) l) lines).
  { apply Forall_concat_inv. rewrite Hcat. apply base64Encode_chars. }
  exists lines. rewrite Hout. repeat split; try assumption.
  - intros ->. cbn in Hcat.
    destruct (Content p) as [|a [|a' [|a'' rest]]]; [congruence | | |];
      discriminate Hcat.
  - rewrite stripCRLF_lines, Hcat by assumption.
    apply base64Decode_base64Encode.
Qed.

(** The base64 lines of the content of the test with children. *)
Lemma C7_base64_lines_round_trip_witness :
  exists lines : list bytes,
    encodeContent (ext := stdExternals)
      (mkPart None (bytesOf "Do you even MIME bro?") "" "" "" "" 0 "" "" [])
      [] TEBase64
    = [] ++ concat (map (fun l => l ++ crnl) lines)
    /\ lines <> []
    /\ Forall (fun l => Forall (fun c => isBase64Char c = true) l) lines
    /\ Forall (fun l => length l = 76%nat) (removelast lines)
    /\ Forall (fun l => (0 < length l <= 76)%nat) lines
    /\ base64Decode (stripCRLF (concat (map (fun l => l ++ crnl) lines)))
       = Some (bytesOf "Do you even MIME bro?").
Proof.
  apply (C7_base64_lines_round_trip
           (mkPart None (bytesOf "Do you even MIME bro?") "" "" "" "" 0 "" "" []) []).
  discriminate.
Defined.

(** ** Construction-time options *)

(** C1 (the code differs): [NewEncoder] returns the default encoder
    whatever options it is given. Built with
    [WithTransferEncodingDeterminer f], the encoder still classifies with
    [SelectTransferEncoding]: the content-only part is written as 7bit
    text, where the encoder with [f] applied writes base64. *)
Theorem C1_NewEncoder_ignores_options :
  (forall (ext : Externals) (options : list EncoderOption),
      NewEncoder options = DefaultEncoder)
  /\ transferEncodingDeterminer
       (NewEncoder [WithTransferEncodingDeterminer Sample.alwaysBase64])
       (Content Sample.contentOnly) false = TE7Bit
  /\ written (Encode (NewEncoder [WithTransferEncodingDeterminer Sample.alwaysBase64])
                     Sample.contentOnly 0%nat)
     = Some (crnl ++ bytesOf "No header, only content.")
  /\ written (Encode (WithTransferEncodingDeterminer Sample.alwaysBase64 DefaultEncoder)
                     Sample.contentOnly 0%nat)
     = Some (bytesOf "Content-Transfer-Encoding: base64" ++ crnl ++ crnl
               ++ bytesOf "Tm8gaGVhZGVyLCBvbmx5IGNvbnRlbnQu" ++ crnl).
Proof.
  split; [reflexivity|]. split; [reflexivity|].
  split; vm_compute; reflexivity.
Qed.

(** ** The address list formatter *)

(** C4 (the code differs): the column that decides the folds leaves out
    the display names. After a name of 70 letters and its address the
    line holds 80 characters; the separator of the next address is
    written without a fold all the same, and the text is one physical
    line of 91 characters. *)
Theorem C4_column_leaves_out_display_name :
  len (bytesOf (Sample.longName ++ " <a@x.com>")) = 80
  /\ EncodeAwareJoinAddress Sample.defaultHeaderEncoder 0 Sample.twoAddresses
     = Ok (Sample.longName ++ " <a@x.com>, <b@y.com>")%string
  /\ physicalLines (bytesOf (Sample.longName ++ " <a@x.com>, <b@y.com>"))
     = [bytesOf (Sample.longName ++ " <a@x.com>, <b@y.com>")]
  /\ len (bytesOf (Sample.longName ++ " <a@x.com>, <b@y.com>")) = 91.
Proof. repeat split; vm_compute; reflexivity. Qed.

(** ** The serializer *)

Lemma encodeHeader_empty {ext : Externals} (p : Part) (b : bytes) :
  headerOf p = ∅ -> encodeHeader DefaultEncoder p b = Ok b.
Proof.
  intros Hh. unfold encodeHeader. rewrite Hh, map_to_list_empty. reflexivity.
Qed.

(** C3, amended: encoding, with the default encoder, a part whose header
    map is empty or nil, with no children, no content type, disposition
    or content id, and with the content "No header, only content."
    (the content-type predicate accepting the part) writes a CRLF and
    then exactly the content bytes: no header line precedes the content,
    the blank line does. *)
Theorem C3_content_only_after_blank_line {ext : Externals}
    (header : option MIMEHeader) (cs fn bd : string) (md : Z) (w : World) :
  header = None \/ header = Some ∅ ->
  TextContent (mkPart (Some ∅) (bytesOf "No header, only content.")
                      "" cs "" fn md "" bd []) = true ->
  written (Encode DefaultEncoder
             (mkPart header (bytesOf "No header, only content.")
                     "" cs "" fn md "" bd []) w)
  = Some (crnl ++ bytesOf "No header, only content.").
Proof.
  intros Hheader Htext.
  cbn [Encode].
  assert (Hsetup :
    setupMIMEHeaders DefaultEncoder
      (ensureHeader (mkPart header (bytesOf "No header, only content.")
                            "" cs "" fn md "" bd [])) w
    = (mkPart (Some ∅) (bytesOf "No header, only content.") ""
              (if String.eqb cs "" then utf8 else cs) "" fn md "" bd [],
       TE7Bit, w)).
  { unfold setupMIMEHeaders.
    assert (Hte : setupTransferEncoding DefaultEncoder
      (ensureHeader (mkPart header (bytesOf "No header, only content.")
                            "" cs "" fn md "" bd []))
      = (mkPart (Some ∅) (bytesOf "No header, only content.") ""
              (if String.eqb cs "" then utf8 else cs) "" fn md "" bd [],
       TE7Bit)).
    { unfold setupTransferEncoding.
      replace (setHeader _ _) with (mkPart (Some ∅) (bytesOf "No header, only content.")
                      "" cs "" fn md "" bd []).
      2:{ destruct Hheader as [-> | ->]; unfold ensureHeader, Header_Del;
          cbn [Header headerOf default from_option setHeader id]; rewrite delete_empty;
          reflexivity. }
      change (contentTypeDeterminer DefaultEncoder ?p) with (TextContent p).
      rewrite Htext. cbn [Content Charset].
      change (transferEncodingDeterminer DefaultEncoder _ false) with TE7Bit.
      change (len _ >? 0) with true. cbv iota.
      destruct (String.eqb cs ""); reflexivity. }
    rewrite Hte. reflexivity. }
  rewrite Hsetup. rewrite encodeHeader_empty by reflexivity.
  reflexivity.
Qed.

(** The part of [TestEncodePartContentOnly]. *)
Lemma C3_content_only_after_blank_line_witness :
  written (Encode (ext := stdExternals) DefaultEncoder Sample.contentOnly 0%nat)
  = Some (crnl ++ bytesOf "No header, only content.").
Proof.
  apply (C3_content_only_after_blank_line (ext := stdExternals)
           None "" "" "" 0 0%nat); [left; reflexivity | reflexivity].
Defined.

(** The content-only part is not written as its bare content: the sink
    receives a CRLF first. *)
Lemma C3_content_only_counterexample :
  written (Encode (ext := stdExternals) DefaultEncoder Sample.contentOnly 0%nat)
  <> Some (bytesOf "No header, only content.").
Proof. intros H. vm_compute in H. discriminate H. Qed.

Lemma bytesOf_app (a b : string) : bytesOf (a ++ b) = bytesOf a ++ bytesOf b.
Proof.
  unfold bytesOf. induction a as [|c a IH]; [reflexivity|].
  change (String c a +:+ b) with (String c (a +:+ b)).
  cbn [list_ascii_of_string]. now rewrite IH.
Qed.

Lemma len_app {A} (a b : list A) : len (a ++ b) = len a + len b.
Proof. unfold len. rewrite length_app. lia. Qed.

Lemma endMarkerOf_spec (p : Part) :
  endMarkerOf p
  = (crnl ++ bytesOf "--" ++ bytesOf (Boundary p)) ++ bytesOf "--".
Proof.
  unfold endMarkerOf. rewrite !bytesOf_app, <- !app_assoc. reflexivity.
Qed.

(** [endMarker[:len(endMarker)-2]] is the delimiter without its two
    closing hyphens. *)
Lemma markerOf_spec (p : Part) :
  markerOf p = crnl ++ bytesOf "--" ++ bytesOf (Boundary p).
Proof.
  unfold markerOf. rewrite endMarkerOf_spec, len_app.
  replace (Z.to_nat (len (crnl ++ bytesOf "--" ++ bytesOf (Boundary p))
                     + len (bytesOf "--") - 2))
    with (length (crnl ++ bytesOf "--" ++ bytesOf (Boundary p)) + 0)%nat
    by (unfold len; cbn; lia).
  rewrite firstn_app_2. cbn [firstn]. now rewrite app_nil_r.
Qed.

Lemma encodeContent_app {ext : Externals} (p : Part) (b : bytes) (cte : TransferEncoding) :
  encodeContent p b cte = b ++ encodeContent p [] cte.
Proof. destruct cte; reflexivity. Qed.

(** [Encode], by what it writes for the part itself and for the
    children. *)
Lemma Encode_unfold {ext : Externals} (e : Encoder) (p : Part) (w : World) :
  Encode e p w
  = let '(p1, cte, w1) := setupMIMEHeaders e (ensureHeader p) w in
    match encodeOwn e p1 cte with
    | Err err => Err err
    | Ok b =>
        match Children p with
        | [] => Ok (b, w1)
        | _ :: _ =>
            match encodeChildrenWith Part_Encode (markerOf p1) (Children p) b w1 with
            | Err err => Err err
            | Ok (b, w2) => Ok (b ++ endMarkerOf p1 ++ crnl, w2)
            end
        end
    end.
Proof.
  destruct p as [h c ct cs d f m id b children]. cbn [Encode Children].
  destruct (setupMIMEHeaders _ _ _) as [[p1 cte] w1]. unfold encodeOwn.
  destruct (encodeHeader e p1 []); reflexivity.
Qed.

Lemma encodeChildren_childEncodings {ext : Externals} (marker : bytes) (cs : list Part) :
  forall (b : bytes) (w : World),
    encodeChildrenWith Part_Encode marker cs b w
    = match childEncodings cs w with
      | Err err => Err err
      | Ok (subs, w') =>
          Ok (b ++ concat (map (fun s => marker ++ crnl ++ s) subs), w')
      end.
Proof.
  induction cs as [|c cs IH]; intros b w; cbn [encodeChildrenWith childEncodings].
  - cbn. now rewrite app_nil_r.
  - destruct (Part_Encode c w) as [[cb w1]|err]; [|reflexivity].
    rewrite IH. destruct (childEncodings cs w1) as [[subs w2]|err]; [|reflexivity].
    cbn [map concat]. now rewrite <- !app_assoc.
Qed.

(** *** What [setupMIMEHeaders] leaves alone *)

Lemma sameInput_refl (p : Part) : sameInput p p.
Proof. repeat split. Qed.

Lemma sameInput_trans (p q r : Part) :
  sameInput p q -> sameInput q r -> sameInput p r.
Proof.
  unfold sameInput. intros (?&?&?&?&?&?&?) (?&?&?&?&?&?&?).
  repeat split; congruence.
Qed.

Lemma sameInput_setHeader (h : MIMEHeader) (p : Part) : sameInput p (setHeader h p).
Proof. repeat split. Qed.

Lemma sameInput_setCharset (cs : string) (p : Part) : sameInput p (setCharset cs p).
Proof. repeat split. Qed.

Lemma sameInput_setBoundary (b : string) (p : Part) : sameInput p (setBoundary b p).
Proof. repeat split. Qed.

Create HintDb setup.

#[local] Hint Resolve sameInput_refl sameInput_setHeader sameInput_setCharset
  sameInput_setBoundary : setup.

Lemma setupTransferEncoding_same {ext : Externals} (e : Encoder) (p : Part) :
  sameInput p (setupTransferEncoding e p).1
  /\ Boundary (setupTransferEncoding e p).1 = Boundary p.
Proof.
  unfold setupTransferEncoding.
  destruct (len (Content (setHeader _ p)) >? 0); [|split; cbn; repeat split].
  destruct (contentTypeDeterminer e _).
  - destruct (String.eqb _ _), (transferEncodingDeterminer e _ _);
      split; cbn; repeat split.
  - split; cbn; repeat split.
Qed.

Lemma setupBoundary_same {ext : Externals} (e : Encoder) (p : Part) (w : World) :
  sameInput p (setupBoundary e p w).1
  /\ (Boundary p <> ""%string \/ Children p = [] ->
      setupBoundary e p w = (p, w)).
Proof.
  unfold setupBoundary. split.
  - destruct (negb _ && _); [destruct (boundaryGenerator e w)|]; cbn [fst];
      auto with setup.
  - intros [Hb | Hc].
    + apply String.eqb_neq in Hb. rewrite Hb, andb_false_r. reflexivity.
    + rewrite Hc. reflexivity.
Qed.

Lemma setupHeaders_same {ext : Externals} (p : Part) :
  sameInput p (setupDisposition (setupContentType (setupContentID p)))
  /\ Boundary (setupDisposition (setupContentType (setupContentID p))) = Boundary p
  /\ Charset (setupDisposition (setupContentType (setupContentID p))) = Charset p.
Proof.
  unfold setupDisposition, setupContentType, setupContentID.
  destruct p as [h c ct cs d f m id b children].
  cbn [ContentID]. destruct (negb (String.eqb id ""));
    cbn [ContentType setHeader]; destruct (negb (String.eqb ct ""));
    cbn [Disposition setHeader]; destruct (negb (String.eqb d ""));
    repeat split.
Qed.

(** The part after [setupMIMEHeaders] has the content, the children and
    the other inputs of the part before; the boundary is kept, and no
    token is drawn, unless the part has children and no boundary. *)
Lemma setupMIMEHeaders_same {ext : Externals} (e : Encoder) (p : Part) (w : World) :
  sameInput p (setupMIMEHeaders e p w).1.1
  /\ (Boundary p <> ""%string \/ Children p = [] ->
      Boundary (setupMIMEHeaders e p w).1.1 = Boundary p
      /\ (setupMIMEHeaders e p w).2 = w).
Proof.
  unfold setupMIMEHeaders.
  destruct (setupTransferEncoding_same e p) as [Hte Hteb].
  destruct (setupTransferEncoding e p) as [p1 cte]. cbn [fst] in Hte, Hteb.
  destruct (setupBoundary_same e p1 w) as [Hb Hbkeep].
  destruct (setupBoundary e p1 w) as [p2 w2] eqn:Eb. cbn [fst snd] in *.
  destruct (setupHeaders_same p2) as (Hh & Hhb & _).
  split.
  - eapply sameInput_trans; [exact Hte|]. eapply sameInput_trans; eassumption.
  - intros Hkeep. rewrite Hhb.
    assert (Hkeep1 : Boundary p1 <> ""%string \/ Children p1 = []).
    { destruct Hkeep as [H|H]; [left; congruence|right].
      destruct Hte as (_ & Hc & _). congruence. }
    specialize (Hbkeep Hkeep1). inversion Hbkeep; subst. auto.
Qed.

Lemma ensureHeader_same (p : Part) :
  sameInput p (ensureHeader p) /\ Boundary (ensureHeader p) = Boundary p.
Proof. unfold ensureHeader. destruct (Header p); repeat split. Qed.

(** The token source after [setupMIMEHeaders]. *)
Lemma setupMIMEHeaders_world {ext : Externals} (e : Encoder) (p : Part) (w : World) :
  (setupMIMEHeaders e p w).2
  = if negb (len (Children p) =? 0) && String.eqb (Boundary p) ""
    then (boundaryGenerator e w).2 else w.
Proof.
  unfold setupMIMEHeaders.
  destruct (setupTransferEncoding_same e p) as [(_ & Hc & _) Hb].
  destruct (setupTransferEncoding e p) as [p1 cte]. cbn [fst] in Hc, Hb.
  unfold setupBoundary. rewrite Hc, Hb.
  destruct (negb _ && _); [destruct (boundaryGenerator e w)|]; reflexivity.
Qed.

(** C8: for every part with boundary string [b] and two children,
    [Encode] writes, in this order: the parent's header block; when the
    parent has content, a CRLF and the encoded content; CRLF, two
    hyphens, [b], CRLF; the first child's full encoding; the same
    delimiter; the second child's full encoding; and the closing
    delimiter, CRLF, two hyphens, [b], two hyphens, CRLF. *)
Theorem C8_two_children_in_order {ext : Externals} (e : Encoder)
    (p c1 c2 p1 : Part) (b : string) (cte : TransferEncoding)
    (w w1 w2 w3 : World) (hdr o1 o2 : bytes) :
  Boundary p = b -> b <> ""%string -> Children p = [c1; c2] ->
  setupMIMEHeaders e (ensureHeader p) w = (p1, cte, w1) ->
  encodeHeader e p1 [] = Ok hdr ->
  Part_Encode c1 w1 = Ok (o1, w2) ->
  Part_Encode c2 w2 = Ok (o2, w3) ->
  Encode e p w
  = Ok (hdr
        ++ (if len (Content p) >? 0 then crnl ++ encodeContent p1 [] cte else [])
        ++ (crnl ++ bytesOf "--" ++ bytesOf b ++ crnl) ++ o1
        ++ (crnl ++ bytesOf "--" ++ bytesOf b ++ crnl) ++ o2
        ++ (crnl ++ bytesOf "--" ++ bytesOf b ++ bytesOf "--" ++ crnl),
        w3).
Proof.
  intros Hb Hne Hcs Hsetup Hhdr Ho1 Ho2.
  rewrite Encode_unfold, Hsetup, Hcs. unfold encodeOwn. rewrite Hhdr.
  destruct (ensureHeader_same p) as [(Hc0 & _) Hb0].
  destruct (setupMIMEHeaders_same e (ensureHeader p) w) as [(Hc1 & _) Hkeep].
  rewrite Hsetup in Hc1, Hkeep. cbn [fst snd] in Hc1, Hkeep.
  destruct Hkeep as [Hb1 _]; [left; congruence|].
  assert (Hp1b : Boundary p1 = b) by congruence.
  assert (Hp1c : Content p1 = Content p) by congruence.
  cbn [encodeChildrenWith]. rewrite Ho1, Ho2.
  rewrite endMarkerOf_spec, markerOf_spec, Hp1b, Hp1c.
  rewrite (encodeContent_app p1 (hdr ++ crnl)).
  destruct (len (Content p) >? 0); rewrite <- ?app_assoc; reflexivity.
Qed.

(** The tree of [TestEncodePartWithChildren], with the default encoder. *)
Lemma C8_two_children_in_order_witness :
  Encode (ext := stdExternals) DefaultEncoder Sample.multipart 0%nat
  = Ok ((bytesOf "Content-Type: multipart/alternative; boundary=enmime-1234567890-parent;"
           ++ crnl ++ bytesOf " charset=utf-8" ++ crnl)
        ++ (if len (Content Sample.multipart) >? 0
            then crnl ++ encodeContent
                   (setupMIMEHeaders DefaultEncoder
                      (ensureHeader Sample.multipart) 0%nat).1.1 [] TE7Bit
            else [])
        ++ (crnl ++ bytesOf "--" ++ bytesOf "enmime-1234567890-parent" ++ crnl)
        ++ (bytesOf "Content-Type: text/html; charset=utf-8" ++ crnl ++ crnl
              ++ bytesOf "<div>HTML part</div>")
        ++ (crnl ++ bytesOf "--" ++ bytesOf "enmime-1234567890-parent" ++ crnl)
        ++ (bytesOf "Content-Type: text/plain; charset=utf-8" ++ crnl ++ crnl
              ++ bytesOf "Plain text part")
        ++ (crnl ++ bytesOf "--" ++ bytesOf "enmime-1234567890-parent"
              ++ bytesOf "--" ++ crnl),
        0%nat).
Proof.
  apply (C8_two_children_in_order (ext := stdExternals) DefaultEncoder
           Sample.multipart Sample.htmlChild Sample.plainChild
           (setupMIMEHeaders DefaultEncoder (ensureHeader Sample.multipart) 0%nat).1.1
           "enmime-1234567890-parent" TE7Bit 0%nat 0%nat 0%nat 0%nat);
    first [discriminate | vm_compute; reflexivity].
Defined.

(** A part with children is written as its own bytes and a multipart
    body of the children's encodings. *)
Lemma Encode_with_children {ext : Externals} (e : Encoder) (p p1 : Part)
    (cte : TransferEncoding) (w wc : World) :
  Children p <> [] ->
  setupMIMEHeaders e (ensureHeader p) w = (p1, cte, wc) ->
  Encode e p w
  = match encodeOwn e p1 cte with
    | Err err => Err err
    | Ok own =>
        match childEncodings (Children p) wc with
        | Err err => Err err
        | Ok (subs, w') => Ok (own ++ multipartBody (markerOf p1) subs, w')
        end
    end.
Proof.
  intros Hcs Hsetup. rewrite Encode_unfold, Hsetup.
  destruct (encodeOwn e p1 cte) as [own|]; [|reflexivity].
  destruct (Children p) as [|c cs] eqn:Ecs; [congruence|].
  rewrite encodeChildren_childEncodings.
  destruct (childEncodings (c :: cs) wc) as [[subs w']|]; [|reflexivity].
  unfold multipartBody. rewrite endMarkerOf_spec, markerOf_spec, <- !app_assoc.
  reflexivity.
Qed.

(** C2: when [Encode] serializes a part that has children, every child
    is encoded by [Part.Encode], that is with [DefaultEncoder]. For two
    encoders [e1] and [e2] that encode the same part from the same token
    source (the part has a boundary, or the two boundary generators leave
    the source in the same state), the encodings [subs] of the child
    subtrees are the same; only the bytes written for the part itself
    and the boundary in the delimiters depend on the encoder. *)
Theorem C2_children_encoded_by_default_encoder {ext : Externals}
    (e1 e2 : Encoder) (p p1 p2 : Part) (cte1 cte2 : TransferEncoding)
    (w wc1 wc2 w1 w2 : World) (out1 out2 : bytes) :
  Children p <> [] ->
  Boundary p <> ""%string
    \/ (boundaryGenerator e1 w).2 = (boundaryGenerator e2 w).2 ->
  setupMIMEHeaders e1 (ensureHeader p) w = (p1, cte1, wc1) ->
  setupMIMEHeaders e2 (ensureHeader p) w = (p2, cte2, wc2) ->
  Encode e1 p w = Ok (out1, w1) ->
  Encode e2 p w = Ok (out2, w2) ->
  exists (own1 own2 : bytes) (subs : list bytes),
    wc1 = wc2 /\ w1 = w2
    /\ childEncodings (Children p) wc1 = Ok (subs, w1)
    /\ encodeOwn e1 p1 cte1 = Ok own1
    /\ encodeOwn e2 p2 cte2 = Ok own2
    /\ out1 = own1 ++ multipartBody (markerOf p1) subs
    /\ out2 = own2 ++ multipartBody (markerOf p2) subs.
Proof.
  intros Hcs Hsame Hs1 Hs2 He1 He2.
  assert (Hw : wc1 = wc2).
  { pose proof (setupMIMEHeaders_world e1 (ensureHeader p) w) as H1.
    pose proof (setupMIMEHeaders_world e2 (ensureHeader p) w) as H2.
    rewrite Hs1 in H1. rewrite Hs2 in H2. cbn [snd] in H1, H2.
    destruct (ensureHeader_same p) as [_ Hb]. rewrite Hb in H1, H2.
    destruct Hsame as [Hne | Hgen].
    - apply String.eqb_neq in Hne. rewrite Hne, andb_false_r in H1, H2. congruence.
    - destruct (negb _ && _); congruence. }
  subst wc2.
  rewrite (Encode_with_children e1 p p1 cte1 w wc1 Hcs Hs1) in He1.
  rewrite (Encode_with_children e2 p p2 cte2 w wc1 Hcs Hs2) in He2.
  destruct (encodeOwn e1 p1 cte1) as [own1|]; [|discriminate].
  destruct (encodeOwn e2 p2 cte2) as [own2|]; [|discriminate].
  destruct (childEncodings (Children p) wc1) as [[subs w']|]; [|discriminate].
  exists own1, own2, subs. repeat split; congruence.
Qed.

(** The tree of the test, once with the default encoder and once with a
    classifier that always answers base64: the outputs differ, the child
    encodings do not. *)
Lemma C2_children_encoded_by_default_encoder_witness :
  exists (out1 out2 : bytes) (w1 : World),
    Encode (ext := stdExternals) DefaultEncoder Sample.multipart 0%nat
      = Ok (out1, w1)
    /\ Encode Sample.base64Encoder Sample.multipart 0%nat = Ok (out2, w1)
    /\ out1 <> out2
    /\ exists (own1 own2 : bytes) (subs : list bytes),
         0%nat = 0%nat /\ w1 = w1
         /\ childEncodings (Children Sample.multipart) 0%nat = Ok (subs, w1)
         /\ encodeOwn DefaultEncoder
              (setupMIMEHeaders DefaultEncoder
                 (ensureHeader Sample.multipart) 0%nat).1.1 TE7Bit = Ok own1
         /\ encodeOwn Sample.base64Encoder
              (setupMIMEHeaders Sample.base64Encoder
                 (ensureHeader Sample.multipart) 0%nat).1.1 TEBase64 = Ok own2
         /\ out1 = own1 ++ multipartBody
                     (markerOf (setupMIMEHeaders DefaultEncoder
                                  (ensureHeader Sample.multipart) 0%nat).1.1) subs
         /\ out2 = own2 ++ multipartBody
                     (markerOf (setupMIMEHeaders Sample.base64Encoder
                                  (ensureHeader Sample.multipart) 0%nat).1.1) subs.
Proof.
  eexists _, _, _. split_and!.
  1-2: vm_compute; reflexivity.
  - vm_compute. discriminate.
  - eapply (C2_children_encoded_by_default_encoder (ext := stdExternals)
              DefaultEncoder Sample.base64Encoder Sample.multipart);
      first [ discriminate | left; discriminate | vm_compute; reflexivity ].
Defined.

(** ** Header folding *)

Lemma splitWords_cons (s : bytes) : exists w ws, splitWords s = w :: ws.
Proof.
  destruct s as [|c t]; cbn [splitWords]; [eauto|].
  destruct (Ascii.eqb c SP); [eauto|]. destruct (splitWords t); eauto.
Qed.

Lemma noSpace_app (a b : bytes) :
  noSpace (a ++ b) = noSpace a && noSpace b.
Proof. apply forallb_app. Qed.

Lemma noLineBreak_app (a b : bytes) :
  noLineBreak (a ++ b) = noLineBreak a && noLineBreak b.
Proof. apply forallb_app. Qed.

(** The words of a line have no space, and joined by spaces they are the
    line. *)
Lemma splitWords_spec (s : bytes) :
  forall w ws, splitWords s = w :: ws ->
    Forall (fun x => noSpace x = true) (w :: ws)
    /\ w ++ concat (map (cons SP) ws) = s.
Proof.
  induction s as [|c t IH]; intros w ws Hs; cbn [splitWords] in Hs.
  - injection Hs as <- <-. split; [repeat constructor | reflexivity].
  - destruct (splitWords_cons t) as (w' & ws' & Ht). rewrite Ht in Hs.
    destruct (IH _ _ Ht) as [Hall Hjoin].
    destruct (Ascii.eqb_spec c SP) as [->|Hc].
    + injection Hs as <- <-. split; [constructor; [reflexivity | exact Hall]|].
      cbn [map concat app]. now rewrite Hjoin.
    + injection Hs as <- <-. pose proof (Forall_inv Hall) as Hw'.
      pose proof (Forall_inv_tail Hall) as Hws'. split.
      * constructor; [|assumption]. cbn [noSpace forallb].
        destruct (Ascii.eqb_spec c SP); [contradiction|]. exact Hw'.
      * cbn [app]. now rewrite Hjoin.
Qed.

(** A text with no space in front of a line goes to its first word. *)
Lemma splitWords_app_l (a s : bytes) :
  noSpace a = true ->
  forall w ws, splitWords s = w :: ws -> splitWords (a ++ s) = (a ++ w) :: ws.
Proof.
  induction a as [|c a IH]; intros Ha w ws Hs; [exact Hs|].
  cbn [noSpace forallb] in Ha. apply andb_true_iff in Ha as [Hc Ha].
  cbn [app splitWords]. destruct (Ascii.eqb c SP); [discriminate|].
  now rewrite (IH Ha _ _ Hs).
Qed.

(** A text with no space behind a line goes to its last word. *)
Lemma splitWords_app_r (s sfx : bytes) :
  noSpace sfx = true -> sfx <> [] ->
  forall w ws, splitWords s = w :: ws ->
    splitWords (s ++ sfx)
    = (if ws is [] then w ++ sfx else w) :: attachLast sfx ws.
Proof.
  intros Hsfx Hne. induction s as [|c t IH]; intros w ws Hs; cbn [splitWords] in Hs.
  - injection Hs as <- <-. cbn [app attachLast].
    destruct (splitWords_cons sfx) as (w' & ws' & Hw).
    pose proof (splitWords_app_l sfx [] Hsfx [] [] eq_refl) as H.
    now rewrite app_nil_r in H.
  - destruct (splitWords_cons t) as (w' & ws' & Ht). rewrite Ht in Hs.
    specialize (IH _ _ Ht). cbn [app splitWords]. rewrite IH.
    destruct (Ascii.eqb c SP).
    + injection Hs as <- <-. cbn [attachLast]. destruct ws'; reflexivity.
    + injection Hs as <- <-. destruct ws'; reflexivity.
Qed.

Lemma len_cons {A} (x : A) (l : list A) : len (x :: l) = 1 + len l.
Proof. unfold len. cbn [length]. lia. Qed.

Lemma len_nonneg {A} (l : list A) : 0 <= len l.
Proof. unfold len. lia. Qed.

Lemma foldedLines_cons (max trail : Z) (words : list bytes) (cur : bytes) :
  exists l ls, foldedLines max trail cur words = l :: ls.
Proof.
  revert cur. induction words as [|w rest IH]; intros cur; cbn [foldedLines];
    [eauto|]. destruct (_ >? max); [eauto | apply IH].
Qed.

(** What [foldWords] writes behind the first word is the text of the
    folded lines, a CRLF between one line and the next. *)
Lemma foldWords_foldedLines (max : Z) (sfx : bytes) (words : list bytes) :
  forall cur : bytes,
    (if words is [] then cur ++ sfx else cur)
      ++ foldWords max (len (if words is [] then cur ++ sfx else cur))
                   (attachLast sfx words)
    = joinLines (foldedLines max (len sfx) cur words) ++ sfx.
Proof.
  induction words as [|w rest IH]; intros cur.
  - cbn. now rewrite !app_nil_r.
  - cbn [attachLast foldedLines].
    assert (Hjoin : forall c' , joinLines (cur :: foldedLines max (len sfx) c' rest)
              = cur ++ crnl ++ joinLines (foldedLines max (len sfx) c' rest)).
    { intros c'. destruct (foldedLines_cons max (len sfx) rest c') as (l & ls & ->).
      cbn [joinLines map concat]. now rewrite <- !app_assoc. }
    destruct rest as [|w2 rest'].
    + cbn [foldWords foldedLines]. rewrite len_app.
      replace (len cur + 1 + (len w + len sfx)) with (len cur + 1 + len w + len sfx)
        by lia.
      destruct (_ >? max); cbn [joinLines map concat];
        rewrite <- ?app_assoc; cbn [app]; rewrite ?app_nil_r, <- ?app_assoc;
        reflexivity.
    + cbn [foldWords]. rewrite Z.add_0_r.
      destruct (len cur + 1 + len w >? max).
      * rewrite Hjoin, <- !app_assoc. do 2 f_equal.
        specialize (IH (SP :: w)). cbn match in IH. rewrite len_cons in IH.
        exact IH.
      * specialize (IH (cur ++ SP :: w)). cbn match in IH.
        rewrite len_app, len_cons, <- !app_assoc in IH.
        replace (len cur + (1 + len w)) with (len cur + 1 + len w) in IH by lia.
        exact IH.
Qed.

Lemma joinLines_crnl (lines : list bytes) :
  lines <> [] ->
  joinLines lines ++ crnl = concat (map (fun l => l ++ crnl) lines).
Proof.
  destruct lines as [|l ls]; [congruence|]. intros _. cbn [joinLines map concat].
  rewrite <- !app_assoc. f_equal.
  induction ls as [|x ls IH]; [now rewrite app_nil_r|].
  cbn [map concat]. rewrite <- !app_assoc. rewrite IH. reflexivity.
Qed.

(** The shape of the folded lines. The words after the first line and
    the continuation lines do not depend on the characters of [cur], only
    on their number. *)
Lemma foldedLines_spec (max trail : Z) (words : list bytes) :
  0 <= trail ->
  Forall (fun x => noSpace x = true) words ->
  forall cur : bytes,
    exists (t : bytes) (conts : list bytes),
      (forall cur', len cur' = len cur ->
         foldedLines max trail cur' words = (cur' ++ t) :: conts)
      /\ (t = [] \/ len cur + len t <= max)
      /\ Forall (fun l => exists u, l = SP :: u
                                    /\ (len l <= max \/ noSpace u = true)) conts
      /\ t ++ concat conts = concat (map (cons SP) words).
Proof.
  intros Htrail. induction 1 as [|w rest Hw Hrest IH]; intros cur.
  - exists [], []. repeat split; auto. intros cur' _. cbn. now rewrite app_nil_r.
  - destruct (Z.gtb_spec (len cur + 1 + len w + (if rest is [] then trail else 0)) max)
      as [Hfold|Hfit].
    + destruct (IH (SP :: w)) as (t & conts & Hlines & Ht & Hconts & Hcat).
      exists [], (((SP :: w) ++ t) :: conts). repeat split.
      * intros cur' Hlen. cbn [foldedLines]. rewrite Hlen.
        destruct (Z.gtb_spec (len cur + 1 + len w + (if rest is [] then trail else 0)) max);
          [|lia].
        rewrite app_nil_r. f_equal. apply Hlines. reflexivity.
      * left; reflexivity.
      * constructor; [|exact Hconts]. exists (w ++ t). split; [reflexivity|].
        destruct Ht as [-> | Ht].
        -- right. now rewrite app_nil_r.
        -- left. rewrite len_app. exact Ht.
      * cbn [app concat map]. rewrite <- app_assoc. cbn [app]. now rewrite Hcat.
    + destruct (IH (cur ++ SP :: w)) as (t & conts & Hlines & Ht & Hconts & Hcat).
      exists (SP :: w ++ t), conts. repeat split.
      * intros cur' Hlen. cbn [foldedLines]. rewrite Hlen.
        destruct (Z.gtb_spec (len cur + 1 + len w + (if rest is [] then trail else 0)) max);
          [lia|].
        rewrite (Hlines (cur' ++ SP :: w)) by (rewrite !len_app; lia).
        now rewrite <- app_assoc.
      * right. rewrite len_cons, len_app.
        destruct Ht as [-> | Ht].
        -- change (len (@nil ascii)) with 0. destruct rest; lia.
        -- rewrite len_app, len_cons in Ht. lia.
      * exact Hconts.
      * cbn [map concat app]. rewrite <- app_assoc. now rewrite Hcat.
Qed.

(** Lines without line breaks, each ended by CRLF, are the physical
    lines of their text. *)
Lemma physicalLines_lines (lines : list bytes) :
  Forall (fun l => noLineBreak l = true) lines ->
  physicalLines (concat (map (fun l => l ++ crnl) lines)) = lines ++ [[]].
Proof.
  induction 1 as [|l ls Hl _ IH]; [reflexivity|].
  cbn [map concat app]. rewrite <- app_assoc.
  induction l as [|c l' IHl]; [cbn; now rewrite IH|].
  cbn [noLineBreak forallb] in Hl. apply andb_true_iff in Hl as [Hc Hl'].
  specialize (IHl Hl'). cbn [app physicalLines].
  destruct (l' ++ crnl ++ concat (map (fun l => l ++ crnl) ls)) as [|d t'] eqn:E.
  { destruct l'; discriminate E. }
  assert (Hcr : Ascii.eqb c CR = false).
  { unfold isLineBreak in Hc. destruct (Ascii.eqb c CR); [discriminate|reflexivity]. }
  rewrite Hcr. cbn [andb]. rewrite IHl. reflexivity.
Qed.

Lemma noLineBreak_concat (first : bytes) (conts : list bytes) :
  noLineBreak (first ++ concat conts) = true ->
  Forall (fun l => noLineBreak l = true) (first :: conts).
Proof.
  rewrite noLineBreak_app. intros [Hf Hc]%andb_true_iff. constructor; [exact Hf|].
  induction conts as [|l ls IH]; [constructor|].
  cbn [concat] in Hc. rewrite noLineBreak_app in Hc.
  apply andb_true_iff in Hc as [Hl Hls]. constructor; auto.
Qed.

(** One header line, for a name without space or line break and an
    encoded value without line break: the index assignment is in range,
    and the line is the folded line of the name and the value. *)
Lemma headerLine_folded (k encv : string) :
  noSpace (bytesOf k) = true ->
  noLineBreak (bytesOf k) = true ->
  noLineBreak (bytesOf encv) = true ->
  exists line, headerLine k encv = Ok line /\ foldedHeaderLine k encv line.
Proof.
  intros Hk Hkb Hvb.
  destruct (splitWords_cons (bytesOf encv)) as (v0 & vs & Hsplit).
  destruct (splitWords_spec _ _ _ Hsplit) as [Hwords Hjoin].
  pose proof (Forall_inv Hwords) as Hv0. pose proof (Forall_inv_tail Hwords) as Hvs.
  destruct (foldedLines_spec 76 2 vs ltac:(lia) Hvs ((bytesOf k ++ bytesOf ":_") ++ v0))
    as (t & conts & Hlines & Ht & Hconts & Hcat).
  set (first := (bytesOf k ++ bytesOf ": ") ++ v0 ++ t).
  assert (Hwb : Wrap 76 [k; ":_"%string; encv; crlfString]
                = bytesOf k ++ ":"%char :: "_"%char :: v0 ++ t ++ crnl
                    ++ concat (map (fun l => l ++ crnl) conts)).
  { unfold Wrap. cbn [map concat].
    replace (bytesOf k ++ bytesOf ":_" ++ bytesOf encv ++ bytesOf crlfString ++ [])
      with ((bytesOf k ++ bytesOf ":_") ++ (bytesOf encv ++ crnl))
      by (rewrite app_nil_r, <- !app_assoc; reflexivity).
    assert (Hpre : noSpace (bytesOf k ++ bytesOf ":_") = true)
      by (rewrite noSpace_app, Hk; reflexivity).
    assert (Hsfx : crnl <> []) by discriminate.
    pose proof (splitWords_app_r (bytesOf encv) crnl eq_refl Hsfx _ _ Hsplit) as Hr.
    rewrite (splitWords_app_l _ _ Hpre _ _ Hr).
    pose proof (foldWords_foldedLines 76 crnl vs ((bytesOf k ++ bytesOf ":_") ++ v0))
      as Hfold.
    replace ((bytesOf k ++ bytesOf ":_") ++ (if vs is [] then v0 ++ crnl else v0))
      with (if vs is [] then ((bytesOf k ++ bytesOf ":_") ++ v0) ++ crnl
            else (bytesOf k ++ bytesOf ":_") ++ v0)
      by (destruct vs; rewrite <- ?app_assoc; reflexivity).
    rewrite Hfold. change (len crnl) with 2. rewrite (Hlines _ eq_refl).
    rewrite joinLines_crnl by discriminate. cbn [map concat].
    rewrite <- !app_assoc. reflexivity. }
  exists (concat (map (fun l => l ++ crnl) (first :: conts))). split.
  - unfold headerLine. rewrite Hwb.
    assert (Hrange : 0 <= len (bytesOf k) + 1
                     < len (bytesOf k ++ ":"%char :: "_"%char :: v0 ++ t ++ crnl
                              ++ concat (map (fun l => l ++ crnl) conts))).
    { rewrite len_app, !len_cons.
      pose proof (len_nonneg (bytesOf k)).
      pose proof (len_nonneg (v0 ++ t ++ crnl ++ concat (map (fun l => l ++ crnl) conts))).
      lia. }
    destruct (Z.leb_spec 0 (len (bytesOf k) + 1)); [|lia].
    destruct (Z.ltb_spec (len (bytesOf k) + 1)
                (len (bytesOf k ++ ":"%char :: "_"%char :: v0 ++ t ++ crnl
                        ++ concat (map (fun l => l ++ crnl) conts)))); [|lia].
    cbn [andb]. f_equal.
    replace (Z.to_nat (len (bytesOf k) + 1)) with (length (bytesOf k) + 1)%nat
      by (unfold len; lia).
    rewrite insert_app_r_alt by lia.
    replace (length (bytesOf k) + 1 - length (bytesOf k))%nat with 1%nat by lia.
    subst first. cbn [map concat]. rewrite <- !app_assoc. reflexivity.
  - assert (Hunfold : first ++ concat conts
                      = bytesOf k ++ bytesOf ": " ++ bytesOf encv).
    { subst first. rewrite <- !app_assoc. do 2 f_equal.
      rewrite <- Hjoin, Hcat. reflexivity. }
    exists first, conts. split; [reflexivity|]. split.
    { apply physicalLines_lines, noLineBreak_concat. rewrite Hunfold.
      rewrite !noLineBreak_app, Hkb, Hvb. reflexivity. }
    split; [exact Hunfold|]. split; [|exact Hconts].
    exists (v0 ++ t). split; [subst first; now rewrite <- app_assoc|].
    destruct Ht as [-> | Ht].
    + right. now rewrite app_nil_r.
    + left. subst first. rewrite !len_app in *.
      change (len (bytesOf ": ")) with 2. change (len (bytesOf ":_")) with 2 in Ht.
      lia.
Qed.

Lemma encodeValues_folded (he : HeaderEncoder) (k : string) (vs : list string) :
  forall b out : bytes,
    encodeValues he k vs b = Ok out ->
    forallb (cleanPair he) (map (pair k) vs) = true ->
    exists lines : list bytes,
      out = b ++ concat lines /\ Forall2 (writtenAs he) (map (pair k) vs) lines.
Proof.
  induction vs as [|v vs IH]; intros b out Henc Hclean; cbn [encodeValues] in Henc.
  - injection Henc as <-. exists []. split; [now rewrite app_nil_r | constructor].
  - cbn [map forallb] in Hclean. apply andb_true_iff in Hclean as [Hkv Hrest].
    unfold cleanPair in Hkv. cbn [fst snd] in Hkv.
    destruct (he 0 v) as [[col encv]|] eqn:Ehe; [|discriminate].
    apply andb_true_iff in Hkv as [[Hk Hkb]%andb_true_iff Hvb].
    destruct (headerLine_folded k encv Hk Hkb Hvb) as (line & Hline & Hfolded).
    rewrite Hline in Henc.
    destruct (IH _ _ Henc Hrest) as (lines & -> & Hall).
    exists (line :: lines). split; [cbn [concat]; now rewrite <- app_assoc|].
    constructor; [|exact Hall]. exists col, encv. split; assumption.
Qed.

Lemma encodeKeys_folded (he : HeaderEncoder) (h : MIMEHeader) (keys : list string) :
  forall b out : bytes,
    encodeKeys he h keys b = Ok out ->
    forallb (cleanPair he)
            (flat_map (fun k => map (pair k) (default [] (h !! k))) keys) = true ->
    exists lines : list bytes,
      out = b ++ concat lines
      /\ Forall2 (writtenAs he)
                 (flat_map (fun k => map (pair k) (default [] (h !! k))) keys) lines.
Proof.
  induction keys as [|k keys IH]; intros b out Henc Hclean; cbn [encodeKeys] in Henc.
  - injection Henc as <-. exists []. split; [now rewrite app_nil_r | constructor].
  - cbn [flat_map] in Hclean. rewrite forallb_app in Hclean.
    apply andb_true_iff in Hclean as [Hk Hrest].
    destruct (encodeValues he k (default [] (h !! k)) b) as [b1|] eqn:Evals;
      [|discriminate].
    destruct (encodeValues_folded _ _ _ _ _ Evals Hk) as (lines1 & -> & Hall1).
    destruct (IH _ _ Henc Hrest) as (lines2 & -> & Hall2).
    exists (lines1 ++ lines2). split.
    + now rewrite concat_app, app_assoc.
    + cbn [flat_map]. apply Forall2_app; assumption.
Qed.

(** C9, amended: in the header block written by [encodeHeader], every
    header value has its own header line, in the order of the sorted
    names; for names without space or line break and encoded values
    without line break, each header line is folded: its physical lines
    end with CRLF, a fold is the CRLF before a space of the value (taking
    the CRLFs away gives back name, colon, space, value, with no space
    added), the first line begins with the name, the colon and the
    literal space, every continuation line begins with a space, and a
    physical line is longer than 76 characters only when it has no
    further space to fold at: the name, colon and space with the first
    word of the value, or a continuation space with one word. *)
Theorem C9_header_lines_folded {ext : Externals} (e : Encoder) (p : Part)
    (headerEncoder : HeaderEncoder) (out : bytes) :
  headerEncoderFactory e (viewOf e) p = Ok headerEncoder ->
  encodeHeader e p [] = Ok out ->
  cleanHeaders headerEncoder (headerOf p) = true ->
  exists lines : list bytes,
    out = concat lines
    /\ Forall2 (writtenAs headerEncoder) (headerPairs (headerOf p)) lines.
Proof.
  intros Hfactory Henc Hclean. unfold encodeHeader in Henc. rewrite Hfactory in Henc.
  destruct (encodeKeys_folded _ _ _ _ _ Henc Hclean) as (lines & -> & Hall).
  exists lines. split; [reflexivity | exact Hall].
Qed.

(** The header block of the root of the test tree, which has one fold. *)
Lemma C9_header_lines_folded_witness :
  exists lines : list bytes,
    bytesOf "Content-Type: multipart/alternative; boundary=enmime-1234567890-parent;"
      ++ crnl ++ bytesOf " charset=utf-8" ++ crnl
    = concat lines
    /\ Forall2 (writtenAs Sample.multipartHeaderEncoder)
               (headerPairs (headerOf Sample.multipartSetUp)) lines.
Proof.
  apply (C9_header_lines_folded (ext := stdExternals) DefaultEncoder
           Sample.multipartSetUp Sample.multipartHeaderEncoder);
    [reflexivity | vm_compute; reflexivity | vm_compute; reflexivity].
Defined.

(** A subject of 70 letters is written on one physical line of 79
    characters, and no token of that line has more than 76. *)
Lemma C9_long_first_line_counterexample :
  written (Encode (ext := stdExternals) DefaultEncoder Sample.longSubject 0%nat)
  = Some (bytesOf ("Subject: " ++ Sample.longName) ++ crnl)
  /\ physicalLines (bytesOf ("Subject: " ++ Sample.longName) ++ crnl)
     = [bytesOf ("Subject: " ++ Sample.longName); []]
  /\ len (bytesOf ("Subject: " ++ Sample.longName)) = 79
  /\ linesWithinOrLongToken (bytesOf ("Subject: " ++ Sample.longName) ++ crnl)
     = false.
Proof. repeat split; vm_compute; reflexivity. Qed.

(** ** Encoding with the default encoder returns no error *)

Lemma foldWords_length (max : Z) (words : list bytes) :
  forall col, len (concat (map (cons SP) words)) <= len (foldWords max col words).
Proof.
  induction words as [|w rest IH]; intros col; cbn [foldWords map concat]; [lia|].
  destruct (_ >? max).
  - specialize (IH (1 + len w)).
    repeat rewrite ?len_app, ?len_cons in *. change (len crnl) with 2. lia.
  - specialize (IH (col + 1 + len w)).
    repeat rewrite ?len_app, ?len_cons in *. lia.
Qed.

(** [Wrap] only adds characters. *)
Lemma Wrap_length (max : Z) (strs : list string) :
  len (concat (map bytesOf strs)) <= len (Wrap max strs).
Proof.
  unfold Wrap. destruct (splitWords_cons (concat (map bytesOf strs))) as (w & ws & Hs).
  rewrite Hs. destruct (splitWords_spec _ _ _ Hs) as [_ <-].
  pose proof (foldWords_length max ws (len w)). rewrite !len_app. lia.
Qed.

(** The index assignment of a header line is always in range. *)
Lemma headerLine_ok (k encv : string) : exists wb, headerLine k encv = Ok wb.
Proof.
  unfold headerLine. pose proof (Wrap_length 76 [k; ":_"%string; encv; crlfString]) as H.
  cbn [map concat] in H. rewrite !len_app in H.
  change (len (bytesOf ":_")) with 2 in H.
  change (len (bytesOf crlfString) + len []) with 2 in H.
  pose proof (len_nonneg (bytesOf k)). pose proof (len_nonneg (bytesOf encv)).
  destruct (Z.leb_spec 0 (len (bytesOf k) + 1)); [|lia].
  destruct (Z.ltb_spec (len (bytesOf k) + 1)
              (len (Wrap 76 [k; ":_"%string; encv; crlfString]))); [|lia].
  eauto.
Qed.

Lemma encodeHeader_default_ok {ext : Externals} (p : Part) (b : bytes) :
  exists out, encodeHeader DefaultEncoder p b = Ok out.
Proof.
  unfold encodeHeader. cbn [headerEncoderFactory DefaultEncoder NewEncoder
                            newFlexibleHeaderEncoder].
  generalize (sortStrings (map fst (map_to_list (headerOf p)))) as keys.
  intros keys. revert b.
  induction keys as [|k keys IH]; intros b; cbn [encodeKeys]; [eauto|].
  assert (Hvals : forall vs b, exists b',
             encodeValues (flexibleHeaderEncoder (viewOf DefaultEncoder) p) k vs b
             = Ok b').
  { induction vs as [|v vs IHvs]; intros b0; cbn [encodeValues]; [eauto|].
    unfold flexibleHeaderEncoder at 1.
    destruct (headerLine_ok k
                match viewTransferEncodingDeterminer (viewOf DefaultEncoder)
                        (bytesOf v) true with
                | TE7Bit => v
                | TEQuoted => QEncode (if String.eqb (Charset p) "" then utf8 else Charset p) v
                | TEBase64 => BEncode (if String.eqb (Charset p) "" then utf8 else Charset p) v
                end) as (wb & ->).
    apply IHvs. }
  destruct (Hvals (default [] (headerOf p !! k)) b) as (b' & ->). apply IH.
Qed.

(** Induction on the tree of parts. *)
Lemma Part_tree_ind (P : Part -> Prop) :
  (forall p, Forall P (Children p) -> P p) -> forall p, P p.
Proof.
  intros H.
  refine (fix IH (p : Part) : P p := _).
  apply H. destruct p as [h c ct cs d f m id b children]. cbn [Children].
  induction children as [|child children IHc]; constructor; [apply IH | exact IHc].
Qed.

Lemma Encode_default_ok {ext : Externals} (p : Part) :
  forall w, isOk (Encode DefaultEncoder p w) = true.
Proof.
  induction p as [p IH] using Part_tree_ind. intros w.
  rewrite Encode_unfold.
  destruct (setupMIMEHeaders DefaultEncoder (ensureHeader p) w) as [[p1 cte] w1].
  unfold encodeOwn. destruct (encodeHeader_default_ok p1 []) as (hdr & ->).
  destruct (Children p) as [|c cs] eqn:Ecs; [reflexivity|].
  rewrite <- Ecs in *. clear Ecs.
  assert (Hloop : forall b w,
             isOk (encodeChildrenWith Part_Encode (markerOf p1) (Children p) b w) = true).
  { induction IH as [|c' cs' Hc' _ IHcs]; intros b0 w0; cbn [encodeChildrenWith];
      [reflexivity|].
    specialize (Hc' w0). unfold Part_Encode.
    destruct (Encode DefaultEncoder c' w0) as [[cb w2]|]; [|discriminate].
    apply IHcs. }
  specialize (Hloop (if len (Content p1) >? 0
                     then encodeContent p1 (hdr ++ crnl) cte else hdr) w1).
  destruct (encodeChildrenWith _ _ _ _ _) as [[b2 w2]|]; [|discriminate].
  destruct (Children p); reflexivity.
Qed.

(** ** Formatting failures *)

Lemma headerOf_setHeader (h : MIMEHeader) (p : Part) : headerOf (setHeader h p) = h.
Proof. reflexivity. Qed.

(** C10: during [setupMIMEHeaders], if [mime.FormatMediaType] fails
    (returns the empty string) while the Content-Type header is built,
    the header is set to the bare content type; if it fails while the
    Content-Disposition header is built, the header is set to the bare
    disposition; and the encode does not fail on that account: with the
    default encoder [Encode] returns no error, whatever
    [FormatMediaType] returns. *)
Theorem C10_format_failure_falls_back {ext : Externals} (e : Encoder) (p : Part)
    (w : World) :
  let p1 := (setupMIMEHeaders e p w).1.1 in
  (ContentType p <> ""%string ->
   FormatMediaType (ContentType p) (contentTypeParam p1) = ""%string ->
   headerOf p1 !! CanonicalMIMEHeaderKey hnContentType = Some [ContentType p])
  /\ (Disposition p <> ""%string ->
      FormatMediaType (Disposition p) (dispositionParam p1) = ""%string ->
      headerOf p1 !! CanonicalMIMEHeaderKey hnContentDisposition
      = Some [Disposition p])
  /\ isOk (Encode DefaultEncoder p w) = true.
Proof.
  cbv zeta. split; [|split; [|apply Encode_default_ok]].
  - unfold setupMIMEHeaders.
    destruct (setupTransferEncoding_same e p) as [(_ & _ & Hct1 & _) _].
    destruct (setupTransferEncoding e p) as [pa cte]. cbn [fst] in Hct1.
    destruct (setupBoundary_same e pa w) as [(_ & _ & Hct2 & _) _].
    destruct (setupBoundary e pa w) as [pb wb]. cbn [fst snd] in *.
    set (pc := setupContentID pb).
    assert (Hct3 : ContentType pc = ContentType p).
    { subst pc. unfold setupContentID. destruct (negb _); cbn; congruence. }
    intros Hne Hfail. rewrite <- Hct3 in Hne, Hfail |- *.
    apply String.eqb_neq in Hne.
    assert (Hparam : contentTypeParam (setupDisposition (setupContentType pc))
                     = contentTypeParam pc).
    { unfold contentTypeParam, setupDisposition, setupContentType.
      rewrite Hne. cbn [negb]. destruct (negb _); reflexivity. }
    rewrite Hparam in Hfail.
    unfold setupDisposition.
    assert (Hhdr : headerOf (setupContentType pc) !! CanonicalMIMEHeaderKey hnContentType
                   = Some [ContentType pc]).
    { unfold setupContentType. rewrite Hne. cbn [negb]. rewrite Hfail.
      cbn [String.eqb]. rewrite headerOf_setHeader. unfold Header_Set.
      apply lookup_insert_eq. }
    destruct (negb _); [|exact Hhdr].
    rewrite headerOf_setHeader. unfold Header_Set.
    rewrite lookup_insert_ne by (vm_compute; discriminate). exact Hhdr.
  - unfold setupMIMEHeaders.
    destruct (setupTransferEncoding_same e p) as [(_ & _ & _ & Hd1 & _) _].
    destruct (setupTransferEncoding e p) as [pa cte]. cbn [fst] in Hd1.
    destruct (setupBoundary_same e pa w) as [(_ & _ & _ & Hd2 & _) _].
    destruct (setupBoundary e pa w) as [pb wb]. cbn [fst snd] in *.
    set (pc := setupContentType (setupContentID pb)).
    assert (Hd3 : Disposition pc = Disposition p).
    { subst pc. unfold setupContentType, setupContentID.
      destruct (negb (String.eqb (ContentID pb) "")); cbn [ContentType setHeader];
        destruct (negb _); cbn; congruence. }
    intros Hne Hfail. rewrite <- Hd3 in Hne, Hfail |- *.
    apply String.eqb_neq in Hne.
    assert (Hparam : dispositionParam (setupDisposition pc) = dispositionParam pc).
    { unfold dispositionParam, setupDisposition. rewrite Hne. reflexivity. }
    rewrite Hparam in Hfail.
    unfold setupDisposition. rewrite Hne. cbn [negb]. rewrite Hfail.
    cbn [String.eqb]. rewrite headerOf_setHeader. unfold Header_Set.
    apply lookup_insert_eq.
Qed.

(** A content type and a disposition that cannot be formatted are kept
    as they are. *)
Lemma C10_format_failure_falls_back_witness :
  let p1 := (setupMIMEHeaders (ext := stdExternals) DefaultEncoder
               Sample.unformattable 0%nat).1.1 in
  headerOf p1 !! "Content-Type"%string = Some ["text/plain; charset=us-ascii"%string]
  /\ headerOf p1 !! "Content-Disposition"%string
     = Some ["attachment; filename=a.txt"%string]
  /\ isOk (Encode DefaultEncoder Sample.unformattable 0%nat) = true.
Proof.
  destruct (C10_format_failure_falls_back (ext := stdExternals) DefaultEncoder
              Sample.unformattable 0%nat) as (Htype & Hdisp & Hok).
  split; [|split].
  - apply Htype; [discriminate | vm_compute; reflexivity].
  - apply Hdisp; [discriminate | vm_compute; reflexivity].
  - exact Hok.
Defined.

(** * Further properties of the code *)

(** ** The classifier, on header values and short content *)

Lemma nonPlain_printableOrTab (b : byte) :
  nonPlain true b = negb (printableOrTab b).
Proof. destruct b as [[] [] [] [] [] [] [] []]; reflexivity. Qed.

Lemma nonPlainCount_zero_iff (q : bool) (good : byte -> bool) (c : bytes) :
  (forall b, nonPlain q b = negb (good b)) ->
  nonPlainCount q c = 0 <-> Forall (fun b => good b = true) c.
Proof.
  intros Hgood. induction c as [|b rest IH].
  - split; [constructor | reflexivity].
  - rewrite nonPlainCount_cons, Hgood.
    pose proof (nonPlainCount_nonneg q rest). split.
    + intros Hsum. destruct (good b) eqn:Hb; cbn in Hsum; [|lia].
      constructor; [assumption | apply IH; lia].
    + intros Hall. pose proof (Forall_inv Hall) as Hb. cbn beta in Hb.
      apply Forall_inv_tail, IH in Hall. rewrite Hb. cbn. lia.
Qed.

Lemma verdict_identity_iff (threshold total : Z) :
  verdict threshold total = TE7Bit <-> total = 0.
Proof.
  unfold verdict. destruct (Z.eqb_spec total 0); [tauto|].
  destruct (total >=? threshold); split; (discriminate || contradiction).
Qed.

(** X1: with line breaks quoted, as for a header value,
    [SelectTransferEncoding] answers [TE7Bit] exactly when every byte is
    printable ASCII or a tab; a CR or an LF is enough for an encoding. *)
Theorem X1_header_value_identity_iff_printable (c : bytes) :
  SelectTransferEncoding c true = TE7Bit
  <-> Forall (fun b => printableOrTab b = true) c.
Proof.
  rewrite SelectTransferEncoding_verdict, verdict_identity_iff.
  apply nonPlainCount_zero_iff, nonPlain_printableOrTab.
Qed.

Lemma wrap_int_small (z : Z) : - 2 ^ 63 <= z < 2 ^ 63 -> wrap_int z = z.
Proof. intros Hz. unfold wrap_int. rewrite Z.mod_small; lia. Qed.

(** X2: content of fewer than ten bytes is never classified
    quoted-printable: the threshold is then at most one, so the first
    non-plain byte already selects base64. *)
Theorem X2_short_content_never_quoted (c : bytes) (quoteLineBreaks : bool) :
  len c < 10 -> SelectTransferEncoding c quoteLineBreaks <> TEQuoted.
Proof.
  intros Hlen. rewrite SelectTransferEncoding_verdict. unfold verdict, b64Threshold.
  pose proof (len_nonneg c) as Hpos.
  pose proof (nonPlainCount_nonneg quoteLineBreaks c) as Hcount.
  rewrite wrap_int_small by (unfold b64Percent; lia).
  assert (Hth : Z.quot (b64Percent * len c) 100 <= 1).
  { unfold b64Percent. rewrite Z.quot_div_nonneg by lia.
    Z.div_mod_to_equations; lia. }
  destruct (Z.eqb_spec (nonPlainCount quoteLineBreaks c) 0); [discriminate|].
  destruct (Z.geb_spec (nonPlainCount quoteLineBreaks c)
              (Z.quot (b64Percent * len c) 100)); [discriminate | lia].
Qed.

Lemma X2_short_content_never_quoted_witness :
  len (bytesOf "caf" ++ [ascii_of_N 233]) < 10
  /\ SelectTransferEncoding (bytesOf "caf" ++ [ascii_of_N 233]) false <> TEQuoted.
Proof.
  split; [reflexivity|].
  apply (X2_short_content_never_quoted (bytesOf "caf" ++ [ascii_of_N 233]) false).
  reflexivity.
Defined.

Lemma nonPlainCount_flag (c : bytes) :
  nonPlainCount false c <= nonPlainCount true c.
Proof.
  induction c as [|b rest IH]; [reflexivity|].
  rewrite !nonPlainCount_cons.
  assert (Hb : nonPlain false b = true -> nonPlain true b = true)
    by (destruct b as [[] [] [] [] [] [] [] []]; cbv; congruence).
  destruct (nonPlain false b); [rewrite Hb by reflexivity; lia|].
  destruct (nonPlain true b); lia.
Qed.

Lemma verdict_monotone (threshold a b : Z) :
  0 <= a <= b -> teRank (verdict threshold a) <= teRank (verdict threshold b).
Proof.
  intros Hab. unfold verdict.
  destruct (Z.eqb_spec a 0), (Z.eqb_spec b 0),
    (Z.geb_spec a threshold), (Z.geb_spec b threshold); cbn; lia.
Qed.

(** X3: counting line breaks as non-plain never selects a lighter
    encoding: what [SelectTransferEncoding] answers for a header value is
    at least what it answers for the same bytes as body content. *)
Theorem X3_quoting_line_breaks_never_lighter (c : bytes) :
  teRank (SelectTransferEncoding c false) <= teRank (SelectTransferEncoding c true).
Proof.
  rewrite !SelectTransferEncoding_verdict. apply verdict_monotone.
  split; [apply nonPlainCount_nonneg | apply nonPlainCount_flag].
Qed.

(** ** The header word encoder *)

(** X4: the header encoder of the default encoder never fails and
    returns the start column plus the length of the text it returns; a
    value of printable ASCII and tabs is returned as it is, any other
    value as a B or Q encoded word in the charset of the part, utf-8
    when the part has none. *)
Theorem X4_default_header_word {ext : Externals} (p : Part) (startColumn : Z)
    (v : string) :
  exists text : string,
    flexibleHeaderEncoder (viewOf DefaultEncoder) p startColumn v
    = Ok (wrap_int (startColumn + len (bytesOf text)), text)
    /\ (Forall (fun b => printableOrTab b = true) (bytesOf v) -> text = v)
    /\ (~ Forall (fun b => printableOrTab b = true) (bytesOf v) ->
        text = BEncode (wordCharset p) v \/ text = QEncode (wordCharset p) v).
Proof.
  unfold flexibleHeaderEncoder, wordCharset.
  cbn [viewOf viewTransferEncodingDeterminer DefaultEncoder NewEncoder
       transferEncodingDeterminer].
  pose proof (Hfwd := proj1 (nonPlainCount_zero_iff true printableOrTab (bytesOf v)
                                    nonPlain_printableOrTab)).
  pose proof (proj2 (nonPlainCount_zero_iff true printableOrTab (bytesOf v)
                       nonPlain_printableOrTab)) as Hback.
  rewrite SelectTransferEncoding_verdict in *.
  destruct (verdict _ _) eqn:Ev; eexists; (split; [reflexivity|]); split;
    try (intros _; reflexivity); intros Hv.
  - apply verdict_identity_iff in Ev. contradiction (Hv (Hfwd Ev)).
  - apply Hback in Hv. apply verdict_identity_iff with (threshold := b64Threshold (bytesOf v)) in Hv.
    congruence.
  - right; reflexivity.
  - apply Hback in Hv. apply verdict_identity_iff with (threshold := b64Threshold (bytesOf v)) in Hv.
    congruence.
  - left; reflexivity.
Qed.

(** ** The size of a base64 body *)

Lemma base64Encode_length (src : bytes) :
  len (base64Encode src) = 4 * ((len src + 2) / 3).
Proof.
  induction src as [| a | a b | a b c rest IH] using bytes_ind3;
    cbn [base64Encode]; repeat rewrite ?len_cons; try rewrite IH;
    change (len (@nil ascii)) with 0.
  1-3: reflexivity.
  pose proof (len_nonneg rest). Z.div_mod_to_equations; lia.
Qed.

Lemma wrapLoop_length (fuel : nat) :
  forall text : bytes,
    (length text < fuel)%nat ->
    len (wrapLoop fuel 76 text) = len text + 2 * ((len text + 75) / 76).
Proof.
  induction fuel as [|fuel IH]; intros text Hfuel; [lia|].
  cbn [wrapLoop]. destruct (Z.gtb_spec (len text) 0) as [Hpos|Hzero].
  - destruct (Z.gtb_spec 76 (len text)) as [Hshort|Hlong].
    + replace (Z.to_nat (len text)) with (length text) by (unfold len; lia).
      rewrite firstn_all, skipn_all, wrapLoop_nil.
      rewrite app_nil_r, len_app. change (len crnl) with 2.
      Z.div_mod_to_equations; lia.
    + change (Z.to_nat 76) with 76%nat.
      assert (Hlen : (76 <= length text)%nat) by (unfold len in *; lia).
      rewrite !len_app, IH by (rewrite length_skipn; lia).
      change (len crnl) with 2. unfold len.
      rewrite length_firstn, length_skipn.
      Z.div_mod_to_equations; lia.
  - assert (Hnil : len text = 0) by (pose proof (len_nonneg text); lia).
    destruct text; [reflexivity | unfold len in Hnil; cbn in Hnil; lia].
Qed.

(** X5: the size of a base64 body. For content of [n] bytes the base64
    branch of [encodeContent] appends four characters for every three
    bytes, rounded up, and two more (a CRLF) for every 76 characters of
    them, rounded up. *)
Theorem X5_base64_body_size {ext : Externals} (p : Part) (b : bytes) :
  len (encodeContent p b TEBase64)
  = len b + 4 * ((len (Content p) + 2) / 3)
    + 2 * ((4 * ((len (Content p) + 2) / 3) + 75) / 76).
Proof.
  cbn [encodeContent]. unfold wrapBase64.
  rewrite len_app, wrapLoop_length by lia. rewrite base64Encode_length. lia.
Qed.

(** ** The headers [setupMIMEHeaders] manages *)

Lemma canonical_names :
  CanonicalMIMEHeaderKey hnContentEncoding = "Content-Transfer-Encoding"%string
  /\ CanonicalMIMEHeaderKey hnContentID = "Content-Id"%string
  /\ CanonicalMIMEHeaderKey hnContentType = "Content-Type"%string
  /\ CanonicalMIMEHeaderKey hnContentDisposition = "Content-Disposition"%string.
Proof. repeat split; vm_compute; reflexivity. Qed.

Lemma lookup_Header_Set (key value k : string) (h : MIMEHeader) :
  Header_Set key value h !! k
  = if String.eqb k (CanonicalMIMEHeaderKey key) then Some [value] else h !! k.
Proof.
  unfold Header_Set. destruct (String.eqb_spec k (CanonicalMIMEHeaderKey key)) as [->|Hne].
  - apply lookup_insert_eq.
  - apply lookup_insert_ne. congruence.
Qed.

Lemma lookup_Header_Del (key k : string) (h : MIMEHeader) :
  Header_Del key h !! k
  = if String.eqb k (CanonicalMIMEHeaderKey key) then None else h !! k.
Proof.
  unfold Header_Del. destruct (String.eqb_spec k (CanonicalMIMEHeaderKey key)) as [->|Hne].
  - apply lookup_delete_eq.
  - apply lookup_delete_ne. congruence.
Qed.

(** The first step: the encoding it returns, the charset, and the
    header map it leaves. *)
Lemma setupTransferEncoding_spec {ext : Externals} (e : Encoder) (p : Part) :
  let p0 := setHeader (Header_Del hnContentEncoding (headerOf p)) p in
  let text := (len (Content p) >? 0) && contentTypeDeterminer e p0 in
  (setupTransferEncoding e p).2
  = (if len (Content p) >? 0
     then if contentTypeDeterminer e p0
          then transferEncodingDeterminer e (Content p) false else TEBase64
     else TE7Bit)
  /\ Charset (setupTransferEncoding e p).1
     = (if text && String.eqb (Charset p) "" then utf8 else Charset p)
  /\ forall k, headerOf (setupTransferEncoding e p).1 !! k
               = if String.eqb k (CanonicalMIMEHeaderKey hnContentEncoding)
                 then cteHeaderValue (setupTransferEncoding e p).2
                 else headerOf p !! k.
Proof.
  cbv zeta. unfold setupTransferEncoding.
  change (Content (setHeader _ p)) with (Content p).
  change (Charset (setHeader _ p)) with (Charset p).
  set (p0 := setHeader (Header_Del hnContentEncoding (headerOf p)) p).
  assert (Hp0 : forall k, headerOf p0 !! k
                = if String.eqb k (CanonicalMIMEHeaderKey hnContentEncoding)
                  then None else headerOf p !! k).
  { intros k. subst p0. rewrite headerOf_setHeader. apply lookup_Header_Del. }
  destruct (len (Content p) >? 0); cbn [andb]; [|repeat split; exact Hp0].
  destruct (contentTypeDeterminer e p0); cbn [andb].
  - destruct (String.eqb (Charset p) "") eqn:Ecs;
      destruct (transferEncodingDeterminer e (Content p) false);
      cbn [fst snd]; repeat split; try (cbn; now rewrite ?Ecs);
      intros k; cbn [cteHeaderValue]; rewrite ?headerOf_setHeader, ?lookup_Header_Set;
      try (change (headerOf (setCharset utf8 p0)) with (headerOf p0));
      rewrite Hp0; destruct (String.eqb k _); reflexivity.
  - cbn [fst snd]. repeat split. intros k. cbn [cteHeaderValue].
    rewrite headerOf_setHeader, lookup_Header_Set, Hp0.
    destruct (String.eqb k _); reflexivity.
Qed.

Lemma setupBoundary_keeps {ext : Externals} (e : Encoder) (p : Part) (w : World) :
  headerOf (setupBoundary e p w).1 = headerOf p
  /\ Charset (setupBoundary e p w).1 = Charset p.
Proof.
  unfold setupBoundary. destruct (negb _ && _); [destruct (boundaryGenerator e w)|];
    split; reflexivity.
Qed.

Lemma setupContentID_lookup {ext : Externals} (p : Part) (k : string) :
  headerOf (setupContentID p) !! k
  = if negb (String.eqb (ContentID p) "")
       && String.eqb k (CanonicalMIMEHeaderKey hnContentID)
    then Some [ToIDHeader (ContentID p)] else headerOf p !! k.
Proof.
  unfold setupContentID. destruct (negb _); cbn [andb]; [|reflexivity].
  rewrite headerOf_setHeader. apply lookup_Header_Set.
Qed.

Lemma setupContentType_lookup {ext : Externals} (p : Part) (k : string) :
  headerOf (setupContentType p) !! k
  = if negb (String.eqb (ContentType p) "")
       && String.eqb k (CanonicalMIMEHeaderKey hnContentType)
    then Some [mediaTypeOrBare (ContentType p) (contentTypeParam p)]
    else headerOf p !! k.
Proof.
  unfold setupContentType. destruct (negb _); cbn [andb]; [|reflexivity].
  rewrite headerOf_setHeader. apply lookup_Header_Set.
Qed.

Lemma setupDisposition_lookup {ext : Externals} (p : Part) (k : string) :
  headerOf (setupDisposition p) !! k
  = if negb (String.eqb (Disposition p) "")
       && String.eqb k (CanonicalMIMEHeaderKey hnContentDisposition)
    then Some [mediaTypeOrBare (Disposition p) (dispositionParam p)]
    else headerOf p !! k.
Proof.
  unfold setupDisposition. destruct (negb _); cbn [andb]; [|reflexivity].
  rewrite headerOf_setHeader. apply lookup_Header_Set.
Qed.

(** The parameters are read from fields the header steps leave alone. *)
Lemma setupHeaders_params {ext : Externals} (p : Part) :
  contentTypeParam (setupDisposition (setupContentType (setupContentID p)))
  = contentTypeParam (setupContentID p)
  /\ dispositionParam (setupDisposition (setupContentType (setupContentID p)))
     = dispositionParam (setupContentType (setupContentID p))
  /\ contentTypeParam (setupContentID p) = contentTypeParam p
  /\ dispositionParam (setupContentType (setupContentID p)) = dispositionParam p.
Proof.
  unfold contentTypeParam, dispositionParam, setupDisposition, setupContentType,
    setupContentID.
  destruct p as [h c ct cs d f m id b children].
  cbn [ContentID]. destruct (negb (String.eqb id ""));
    cbn [ContentType setHeader]; destruct (negb (String.eqb ct ""));
    cbn [Disposition setHeader]; destruct (negb (String.eqb d ""));
    repeat split.
Qed.

(** Every header of the part after [setupMIMEHeaders], by its name. *)
Lemma setupMIMEHeaders_lookup {ext : Externals} (e : Encoder) (p : Part)
    (w : World) (k : string) :
  let p1 := (setupMIMEHeaders e p w).1.1 in
  let cte := (setupMIMEHeaders e p w).1.2 in
  headerOf p1 !! k
  = if negb (String.eqb (Disposition p) "")
       && String.eqb k "Content-Disposition"
    then Some [mediaTypeOrBare (Disposition p) (dispositionParam p1)]
    else if negb (String.eqb (ContentType p) "") && String.eqb k "Content-Type"
    then Some [mediaTypeOrBare (ContentType p) (contentTypeParam p1)]
    else if negb (String.eqb (ContentID p) "") && String.eqb k "Content-Id"
    then Some [ToIDHeader (ContentID p)]
    else if String.eqb k "Content-Transfer-Encoding" then cteHeaderValue cte
    else headerOf p !! k.
Proof.
  cbv zeta. unfold setupMIMEHeaders.
  destruct (setupTransferEncoding_same e p) as [(_ & _ & Hct & Hd & _ & _ & Hid) _].
  destruct (setupTransferEncoding_spec e p) as (_ & _ & Hlook).
  destruct (setupTransferEncoding e p) as [pa cte]. cbn [fst snd] in *.
  destruct (setupBoundary_same e pa w) as [(_ & _ & Hct2 & Hd2 & _ & _ & Hid2) _].
  destruct (setupBoundary_keeps e pa w) as [Hh2 _].
  destruct (setupBoundary e pa w) as [pb wb]. cbn [fst snd] in *.
  destruct (setupHeaders_params pb) as (Hp1 & Hp2 & Hp3 & Hp4).
  destruct (setupHeaders_same pb) as ((_ & _ & Hct3 & Hd3 & _ & _ & Hid3) & _ & _).
  rewrite setupDisposition_lookup, setupContentType_lookup, setupContentID_lookup.
  rewrite Hp1, Hp2.
  assert (Hd4 : Disposition (setupContentType (setupContentID pb)) = Disposition p).
  { unfold setupContentType, setupContentID.
    destruct (negb (String.eqb (ContentID pb) "")); cbn [ContentType setHeader];
      destruct (negb _); cbn; congruence. }
  assert (Hct4 : ContentType (setupContentID pb) = ContentType p).
  { unfold setupContentID. destruct (negb _); cbn; congruence. }
  rewrite Hd4, Hct4. replace (ContentID pb) with (ContentID p) by congruence.
  rewrite Hh2, Hlook.
  destruct canonical_names as (-> & -> & -> & ->). reflexivity.
Qed.

(** X6: after [setupMIMEHeaders] the Content-Transfer-Encoding header
    says the encoding the call returns, whatever the header was before:
    none for 7bit, quoted-printable or base64 otherwise. *)
Theorem X6_transfer_encoding_header_matches {ext : Externals} (e : Encoder)
    (p : Part) (w : World) :
  headerOf (setupMIMEHeaders e p w).1.1 !! "Content-Transfer-Encoding"%string
  = cteHeaderValue (setupMIMEHeaders e p w).1.2.
Proof.
  pose proof (setupMIMEHeaders_lookup e p w "Content-Transfer-Encoding") as H.
  cbv zeta in H. rewrite H.
  change (String.eqb "Content-Transfer-Encoding" "Content-Disposition") with false.
  change (String.eqb "Content-Transfer-Encoding" "Content-Type") with false.
  change (String.eqb "Content-Transfer-Encoding" "Content-Id") with false.
  rewrite !andb_false_r. reflexivity.
Qed.

(** X7: [setupMIMEHeaders] touches four headers only: a header of any
    other name is after the call what it was before. *)
Theorem X7_other_headers_untouched {ext : Externals} (e : Encoder) (p : Part)
    (w : World) (k : string) :
  k <> "Content-Transfer-Encoding"%string -> k <> "Content-Id"%string ->
  k <> "Content-Type"%string -> k <> "Content-Disposition"%string ->
  headerOf (setupMIMEHeaders e p w).1.1 !! k = headerOf p !! k.
Proof.
  intros H1 H2 H3 H4. pose proof (setupMIMEHeaders_lookup e p w k) as H.
  cbv zeta in H. rewrite H.
  apply String.eqb_neq in H1, H2, H3, H4. rewrite H1, H2, H3, H4, !andb_false_r.
  reflexivity.
Qed.

(** X8: the Content-Id, Content-Type and Content-Disposition headers are
    written only for a field that is set: with an empty field the header
    keeps the value it had (it is not removed); with the field set it
    becomes the id in header form, or the formatted media type, or the
    bare type when formatting fails, built from the charset, file name
    and boundary the part has after the call. *)
Theorem X8_managed_headers {ext : Externals} (e : Encoder) (p : Part) (w : World) :
  let p1 := (setupMIMEHeaders e p w).1.1 in
  headerOf p1 !! "Content-Id"%string
  = (if String.eqb (ContentID p) "" then headerOf p !! "Content-Id"%string
     else Some [ToIDHeader (ContentID p)])
  /\ headerOf p1 !! "Content-Type"%string
     = (if String.eqb (ContentType p) "" then headerOf p !! "Content-Type"%string
        else Some [mediaTypeOrBare (ContentType p) (contentTypeParam p1)])
  /\ headerOf p1 !! "Content-Disposition"%string
     = (if String.eqb (Disposition p) "" then headerOf p !! "Content-Disposition"%string
        else Some [mediaTypeOrBare (Disposition p) (dispositionParam p1)]).
Proof.
  cbv zeta. rewrite !(setupMIMEHeaders_lookup e p w).
  change (String.eqb "Content-Id" "Content-Disposition") with false.
  change (String.eqb "Content-Id" "Content-Type") with false.
  change (String.eqb "Content-Id" "Content-Id") with true.
  change (String.eqb "Content-Id" "Content-Transfer-Encoding") with false.
  change (String.eqb "Content-Type" "Content-Disposition") with false.
  change (String.eqb "Content-Type" "Content-Type") with true.
  change (String.eqb "Content-Type" "Content-Id") with false.
  change (String.eqb "Content-Type" "Content-Transfer-Encoding") with false.
  change (String.eqb "Content-Disposition" "Content-Disposition") with true.
  change (String.eqb "Content-Disposition" "Content-Type") with false.
  change (String.eqb "Content-Disposition" "Content-Id") with false.
  change (String.eqb "Content-Disposition" "Content-Transfer-Encoding") with false.
  rewrite !andb_false_r, !andb_true_r.
  destruct (String.eqb (ContentID p) ""), (String.eqb (ContentType p) ""),
    (String.eqb (Disposition p) ""); repeat split.
Qed.

Lemma X7_other_headers_untouched_witness :
  headerOf (setupMIMEHeaders (ext := stdExternals) DefaultEncoder
              Sample.longSubject 0%nat).1.1 !! "Subject"%string
  = headerOf Sample.longSubject !! "Subject"%string.
Proof.
  apply (X7_other_headers_untouched (ext := stdExternals) DefaultEncoder
           Sample.longSubject 0%nat "Subject"); discriminate.
Defined.

(** ** The boundary and the charset after [setupMIMEHeaders] *)

Lemma setupMIMEHeaders_steps {ext : Externals} (e : Encoder) (p : Part) (w : World) :
  let pa := (setupTransferEncoding e p).1 in
  (setupMIMEHeaders e p w).1.2 = (setupTransferEncoding e p).2
  /\ Charset (setupMIMEHeaders e p w).1.1 = Charset pa
  /\ Boundary (setupMIMEHeaders e p w).1.1 = Boundary (setupBoundary e pa w).1
  /\ Header (setupMIMEHeaders e p w).1.1
     = Some (headerOf (setupMIMEHeaders e p w).1.1).
Proof.
  cbv zeta. unfold setupMIMEHeaders.
  assert (Hsome : Header (setupTransferEncoding e p).1
                  = Some (headerOf (setupTransferEncoding e p).1)).
  { unfold setupTransferEncoding.
    destruct (len _ >? 0); [|reflexivity].
    destruct (contentTypeDeterminer e _);
      [destruct (String.eqb _ _), (transferEncodingDeterminer e _ _)|]; reflexivity. }
  destruct (setupTransferEncoding e p) as [pa cte]. cbn [fst snd] in *.
  destruct (setupBoundary_keeps e pa w) as [Hh Hc].
  assert (Hsome2 : Header (setupBoundary e pa w).1
                   = Some (headerOf (setupBoundary e pa w).1)).
  { unfold setupBoundary. destruct (negb _ && _); [destruct (boundaryGenerator e w)|];
      exact Hsome. }
  destruct (setupBoundary e pa w) as [pb wb]. cbn [fst snd] in *.
  destruct (setupHeaders_same pb) as (_ & Hb & Hcs).
  repeat split; [congruence | exact Hb |].
  unfold setupDisposition, setupContentType, setupContentID.
  destruct (negb (String.eqb (ContentID pb) "")); cbn [ContentType setHeader];
    destruct (negb _); cbn [Disposition setHeader]; destruct (negb _);
    first [reflexivity | exact Hsome2].
Qed.

Lemma lookup_setParamValue (param : gmap string string) (k v j : string) :
  setParamValue param k v !! j
  = if negb (String.eqb v "") && String.eqb j k then Some v else param !! j.
Proof.
  unfold setParamValue. destruct (String.eqb v ""); cbn [negb andb]; [reflexivity|].
  destruct (String.eqb_spec j k) as [->|Hne].
  - apply lookup_insert_eq.
  - apply lookup_insert_ne. congruence.
Qed.

(** X9: the boundary after [setupMIMEHeaders]. A boundary that is set is
    kept, a part without children gets none, and in both cases no token
    is drawn; a part with children and no boundary gets what the boundary
    generator returns. The boundary parameter given to the Content-Type
    header is this boundary, and is left out when it is empty. *)
Theorem X9_boundary_after_setup {ext : Externals} (e : Encoder) (p : Part)
    (w : World) :
  let p1 := (setupMIMEHeaders e p w).1.1 in
  (Boundary p1, (setupMIMEHeaders e p w).2)
  = (if negb (len (Children p) =? 0) && String.eqb (Boundary p) ""
     then boundaryGenerator e w else (Boundary p, w))
  /\ contentTypeParam p1 !! hpBoundary
     = (if String.eqb (Boundary p1) "" then None else Some (Boundary p1)).
Proof.
  cbv zeta. split.
  - destruct (setupMIMEHeaders_steps e p w) as (_ & _ & Hb & _). cbv zeta in Hb.
    rewrite Hb, setupMIMEHeaders_world.
    destruct (setupTransferEncoding_same e p) as [(_ & Hc & _) Hbp].
    unfold setupBoundary. rewrite Hc, Hbp.
    destruct (negb _ && _); [destruct (boundaryGenerator e w)|]; cbn [fst snd];
      rewrite ?Hbp; reflexivity.
  - unfold contentTypeParam. rewrite !lookup_setParamValue, lookup_empty.
    change (String.eqb hpBoundary hpBoundary) with true.
    change (String.eqb hpBoundary hpName) with false.
    change (String.eqb hpBoundary hpCharset) with false.
    rewrite !andb_false_r, andb_true_r.
    destruct (String.eqb (Boundary _) ""); reflexivity.
Qed.

Lemma Part_eq (p q : Part) :
  Header q = Header p -> sameInput p q -> Charset q = Charset p ->
  Boundary q = Boundary p -> q = p.
Proof.
  destruct p, q. unfold sameInput. cbn. intros ? (?&?&?&?&?&?&?) ? ?.
  congruence.
Qed.

(** X10: [setupMIMEHeaders] is idempotent. Called again on the part it
    has set up, it returns the same encoding, draws no token and leaves
    the part as it is, provided the content-type predicate answers for
    the part that is set up as it did before, and a part with children
    has got a boundary that is not empty. *)
Theorem X10_setup_idempotent {ext : Externals} (e : Encoder) (p p1 : Part)
    (cte : TransferEncoding) (w w1 : World) :
  setupMIMEHeaders e p w = (p1, cte, w1) ->
  contentTypeDeterminer e (setHeader (Header_Del hnContentEncoding (headerOf p1)) p1)
  = contentTypeDeterminer e (setHeader (Header_Del hnContentEncoding (headerOf p)) p) ->
  Boundary p1 <> ""%string \/ Children p = [] ->
  setupMIMEHeaders e p1 w1 = (p1, cte, w1).
Proof.
  intros Hsetup Hdet Hbound.
  destruct (setupMIMEHeaders_same e p w) as [Hsame _].
  destruct (setupMIMEHeaders_steps e p w) as (Hcte & Hcs & _ & Hhdr).
  destruct (setupTransferEncoding_spec e p) as (Hcte0 & Hcs0 & _).
  pose proof (setupMIMEHeaders_lookup e p w) as Hlook.
  rewrite Hsetup in Hsame, Hcte, Hcs, Hhdr, Hlook. cbn [fst snd] in *. cbv zeta in *.
  destruct Hsame as (Hc & Hch & Hct & Hd & Hf & Hm & Hid).
  destruct (setupMIMEHeaders_same e p1 w1) as [Hsame2 Hkeep2].
  destruct (setupMIMEHeaders_steps e p1 w1) as (Hcte2 & Hcs2 & _ & Hhdr2).
  destruct (setupTransferEncoding_spec e p1) as (Hcte02 & Hcs02 & _).
  pose proof (setupMIMEHeaders_lookup e p1 w1) as Hlook2.
  cbv zeta in *.
  destruct (setupMIMEHeaders e p1 w1) as [[p2 cte2] w2]. cbn [fst snd] in *.
  destruct Hkeep2 as [Hb2 Hw2]; [destruct Hbound; [left; assumption | right; congruence]|].
  assert (Ecte : cte2 = cte).
  { rewrite Hcte2, Hcte02, Hcte, Hcte0, Hc, Hdet. reflexivity. }
  assert (Ecs : Charset p2 = Charset p1).
  { rewrite Hcs2, Hcs02, Hc, Hdet.
    destruct ((len (Content p) >? 0)
              && contentTypeDeterminer e
                   (setHeader (Header_Del hnContentEncoding (headerOf p)) p)) eqn:Etext;
      cbn [andb]; [|reflexivity].
    rewrite Hcs, Hcs0. cbn [andb].
    destruct (String.eqb (Charset p) "") eqn:E0; [reflexivity|].
    rewrite E0. reflexivity. }
  destruct Hsame2 as (Hc2 & Hch2 & Hct2 & Hd2 & Hf2 & Hm2 & Hid2).
  assert (Ep : p2 = p1).
  { apply Part_eq; [| repeat split; assumption | exact Ecs | exact Hb2].
    rewrite Hhdr2, Hhdr. f_equal. apply map_eq. intros k.
    rewrite Hlook2, Hlook, Hd, Hct, Hid, Ecte.
    assert (Hdp : dispositionParam p2 = dispositionParam p1)
      by (unfold dispositionParam; rewrite Hf2, Hm2; reflexivity).
    assert (Hcp : contentTypeParam p2 = contentTypeParam p1)
      by (unfold contentTypeParam; rewrite Ecs, Hf2, Hb2; reflexivity).
    rewrite Hdp, Hcp.
    destruct (negb (String.eqb (Disposition p) "") && String.eqb k "Content-Disposition");
      [reflexivity|].
    destruct (negb (String.eqb (ContentType p) "") && String.eqb k "Content-Type");
      [reflexivity|].
    destruct (negb (String.eqb (ContentID p) "") && String.eqb k "Content-Id");
      [reflexivity|].
    destruct (String.eqb k "Content-Transfer-Encoding"); reflexivity. }
  congruence.
Qed.

Lemma X10_setup_idempotent_witness :
  setupMIMEHeaders (ext := stdExternals) DefaultEncoder Sample.multipartSetUp 0%nat
  = (Sample.multipartSetUp, TE7Bit, 0%nat).
Proof.
  apply (X10_setup_idempotent (ext := stdExternals) DefaultEncoder
           (ensureHeader Sample.multipart) Sample.multipartSetUp TE7Bit 0%nat 0%nat);
    [vm_compute; reflexivity | reflexivity | left; vm_compute; discriminate].
Defined.

(** ** The order of the header names *)

Lemma string_leb_cons (c1 c2 : ascii) (s1 s2 : string) :
  String.leb (String c1 s1) (String c2 s2)
  = match N.compare (N_of_ascii c1) (N_of_ascii c2) with
    | Lt => true
    | Eq => String.leb s1 s2
    | Gt => false
    end.
Proof.
  unfold String.leb. cbn [String.compare]. unfold Ascii.compare.
  destruct (N.compare (N_of_ascii c1) (N_of_ascii c2)); reflexivity.
Qed.

Lemma string_leb_trans (a b c : string) :
  String.leb a b = true -> String.leb b c = true -> String.leb a c = true.
Proof.
  revert b c. induction a as [|x a IH]; intros [|y b] [|z c]; try reflexivity;
    try discriminate.
  rewrite !string_leb_cons.
  destruct (N.compare_spec (N_of_ascii x) (N_of_ascii y)) as [Exy|Hxy|Hxy];
    destruct (N.compare_spec (N_of_ascii y) (N_of_ascii z)) as [Eyz|Hyz|Hyz];
    try discriminate; intros Hab Hbc.
  - rewrite Exy, Eyz, N.compare_refl. eauto.
  - rewrite Exy. now apply N.compare_lt_iff in Hyz as ->.
  - rewrite <- Eyz. now apply N.compare_lt_iff in Hxy as ->.
  - assert (Hxz : (N_of_ascii x < N_of_ascii z)%N) by lia.
    now apply N.compare_lt_iff in Hxz as ->.
Qed.

#[local] Instance string_le_total : Total string_le.
Proof. intros a b. apply String.leb_total. Qed.

#[local] Instance string_le_trans : Transitive string_le.
Proof. intros a b c. apply string_leb_trans. Qed.

#[local] Instance string_le_antisym : AntiSymm (=) string_le.
Proof. intros a b. apply String.leb_antisym. Qed.

(** X11: the order in which [encodeHeader] writes the header names does
    not depend on the order in which the map yields them. The sorted
    names are ascending, each name of the map is there once, and any
    other enumeration of the names of the map sorts to the same list. *)
Theorem X11_header_names_sorted (h : MIMEHeader) (keys : list string) :
  keys ≡ₚ map fst (map_to_list h) ->
  StronglySorted string_le (sortStrings keys)
  /\ NoDup (sortStrings keys)
  /\ (forall k, k ∈ sortStrings keys <-> is_Some (h !! k))
  /\ sortStrings keys = sortStrings (map fst (map_to_list h)).
Proof.
  intros Hperm. unfold sortStrings.
  assert (Hsorted : forall l, StronglySorted string_le (merge_sort string_le l))
    by (intros l; apply StronglySorted_merge_sort; typeclasses eauto).
  split; [apply Hsorted|]. split; [|split].
  - rewrite merge_sort_Permutation, Hperm. apply NoDup_fst_map_to_list.
  - intros k. rewrite merge_sort_Permutation, Hperm, list_elem_of_fmap. split.
    + intros [[k' v] [-> Hin]]. apply elem_of_map_to_list in Hin. cbn. eauto.
    + intros [v Hv]. exists (k, v). split; [reflexivity|].
      now apply elem_of_map_to_list.
  - apply (StronglySorted_unique string_le); [apply Hsorted .. |].
    now rewrite !merge_sort_Permutation.
Qed.

Lemma X11_header_names_sorted_witness :
  StronglySorted string_le (sortStrings ["Content-Type"; "Subject"; "X-Data"]%string)
  /\ NoDup (sortStrings ["Content-Type"; "Subject"; "X-Data"]%string)
  /\ (forall k, k ∈ sortStrings ["Content-Type"; "Subject"; "X-Data"]%string
                <-> is_Some (({[ "Subject"%string := ["s"%string] ]}
                               ∪ {[ "X-Data"%string := ["x"%string] ]}
                               ∪ {[ "Content-Type"%string := ["t"%string] ]}
                              : MIMEHeader) !! k))
  /\ sortStrings ["Content-Type"; "Subject"; "X-Data"]%string
     = sortStrings (map fst (map_to_list
                               ({[ "Subject"%string := ["s"%string] ]}
                                ∪ {[ "X-Data"%string := ["x"%string] ]}
                                ∪ {[ "Content-Type"%string := ["t"%string] ]}
                                : MIMEHeader))).
Proof.
  apply (X11_header_names_sorted
           ({[ "Subject"%string := ["s"%string] ]}
            ∪ {[ "X-Data"%string := ["x"%string] ]}
            ∪ {[ "Content-Type"%string := ["t"%string] ]})).
  vm_compute. apply perm_swap.
Defined.

(** ** Errors, leaves and tokens of [Encode] *)



(** X13: a part without children is written as its header block and, if
    it has content, a CRLF and the encoded content; nothing follows, no
    boundary is generated and no token drawn. Without content there is
    no blank line after the header block. *)
Theorem X13_leaf_part {ext : Externals} (e : Encoder) (p : Part) (w : World) :
  Children p = [] ->
  Encode e p w
  = match encodeHeader e (setupMIMEHeaders e (ensureHeader p) w).1.1 [] with
    | Err err => Err err
    | Ok hdr =>
        Ok (hdr ++ (if len (Content p) >? 0
                    then crnl ++ encodeContent
                                   (setupMIMEHeaders e (ensureHeader p) w).1.1 []
                                   (setupMIMEHeaders e (ensureHeader p) w).1.2
                    else []), w)
    end.
Proof.
  intros Hleaf. rewrite Encode_unfold, Hleaf.
  destruct (ensureHeader_same p) as [(Hc0 & Hch0 & _) _].
  destruct (setupMIMEHeaders_same e (ensureHeader p) w) as [(Hc & _) Hkeep].
  destruct Hkeep as [_ Hw]; [right; congruence|].
  destruct (setupMIMEHeaders e (ensureHeader p) w) as [[p1 cte] w1].
  cbn [fst snd] in *. subst w1. unfold encodeOwn.
  destruct (encodeHeader e p1 []) as [hdr|]; [|reflexivity].
  replace (Content p1) with (Content p) by congruence.
  destruct (len (Content p) >? 0).
  - now rewrite encodeContent_app, <- app_assoc.
  - now rewrite app_nil_r.
Qed.

Lemma X13_leaf_part_witness :
  Encode (ext := stdExternals) DefaultEncoder Sample.longSubject 0%nat
  = match encodeHeader DefaultEncoder
            (setupMIMEHeaders DefaultEncoder (ensureHeader Sample.longSubject) 0%nat).1.1
            [] with
    | Err err => Err err
    | Ok hdr =>
        Ok (hdr ++ (if len (Content Sample.longSubject) >? 0
                    then crnl ++ encodeContent
                                   (setupMIMEHeaders DefaultEncoder
                                      (ensureHeader Sample.longSubject) 0%nat).1.1 []
                                   (setupMIMEHeaders DefaultEncoder
                                      (ensureHeader Sample.longSubject) 0%nat).1.2
                    else []), 0%nat)
    end.
Proof.
  apply (X13_leaf_part (ext := stdExternals) DefaultEncoder Sample.longSubject 0%nat).
  reflexivity.
Defined.




(** X15: a Content-Transfer-Encoding header a part already has does not
    reach the output: with the header set to any value, [Encode] returns
    what it returns for the part without that change. *)
Theorem X15_stale_transfer_encoding_ignored {ext : Externals} (e : Encoder)
    (p : Part) (w : World) (v : string) :
  Encode e (setHeader (Header_Set hnContentEncoding v (headerOf p)) p) w
  = Encode e p w.
Proof.
  rewrite !Encode_unfold.
  change (Children (setHeader _ p)) with (Children p).
  assert (Hsetup :
    setupMIMEHeaders e
      (ensureHeader (setHeader (Header_Set hnContentEncoding v (headerOf p)) p)) w
    = setupMIMEHeaders e (ensureHeader p) w).
  { unfold setupMIMEHeaders, setupTransferEncoding.
    assert (Hp0 :
      setHeader (Header_Del hnContentEncoding
                   (headerOf (ensureHeader
                                (setHeader (Header_Set hnContentEncoding v (headerOf p)) p))))
                (ensureHeader (setHeader (Header_Set hnContentEncoding v (headerOf p)) p))
      = setHeader (Header_Del hnContentEncoding (headerOf (ensureHeader p)))
                  (ensureHeader p)).
    { unfold ensureHeader. cbn [Header setHeader].
      unfold Header_Del, Header_Set. destruct p as [[h|] c ct cs d f m cid b children];
        cbn [Header headerOf default from_option id setHeader Content ContentType
             Charset Disposition FileName FileModDate ContentID Boundary Children];
        rewrite delete_insert_eq; reflexivity. }
    rewrite Hp0. reflexivity. }
  rewrite Hsetup. reflexivity.
Qed.
(** ** The address list formatters *)

Lemma bytesOf_stringOf (b : bytes) : bytesOf (stringOf b) = b.
Proof. apply list_ascii_of_string_of_list_ascii. Qed.

Lemma stringOf_bytesOf (s : string) : stringOf (bytesOf s) = s.
Proof. apply string_of_list_ascii_of_string. Qed.

Lemma bytesOf_inj (s t : string) : bytesOf s = bytesOf t -> s = t.
Proof.
  intros H. rewrite <- (stringOf_bytesOf s), <- (stringOf_bytesOf t). now rewrite H.
Qed.

Lemma joinPlain_bytes (str : MailAddress -> string) (addrs : list MailAddress) :
  forall i buf, 0 < i ->
    bytesOf (joinPlain str i buf addrs)
    = buf ++ List.concat (map (fun a => bytesOf ", " ++ bytesOf (str a)) addrs).
Proof.
  induction addrs as [|a rest IH]; intros i buf Hi; cbn [joinPlain map List.concat].
  - now rewrite bytesOf_stringOf, app_nil_r.
  - replace (i >? 0) with true by lia. rewrite IH by lia.
    now rewrite <- !app_assoc.
Qed.

Lemma concat_bytes (x : string) (l : list string) :
  bytesOf (String.concat ", " (x :: l))
  = bytesOf x ++ List.concat (map (fun a => bytesOf ", " ++ bytesOf a) l).
Proof.
  revert x. induction l as [|y l IH]; intros x.
  - cbn [String.concat map List.concat]. now rewrite app_nil_r.
  - change (String.concat ", " (x :: y :: l))
      with (x ++ ", " ++ String.concat ", " (y :: l))%string.
    rewrite !bytesOf_app, IH. cbn [map List.concat]. now rewrite <- !app_assoc.
Qed.

(** X16: [JoinAddress] returns the addresses, each as its [String]
    method gives it, separated by a comma and a space: no separator
    leads or trails, and the empty list gives the empty string. *)
Theorem X16_JoinAddress_separated (str : MailAddress -> string)
    (addrs : list MailAddress) :
  JoinAddress str addrs = String.concat ", " (map str addrs).
Proof.
  destruct addrs as [|a rest]; [reflexivity|].
  unfold JoinAddress.
  replace (len (a :: rest) =? 0) with false
    by (symmetry; apply Z.eqb_neq; rewrite len_cons; pose proof (len_nonneg rest); lia).
  apply bytesOf_inj. cbn [joinPlain map].
  change (0 >? 0) with false. cbn [app].
  rewrite joinPlain_bytes by lia. rewrite concat_bytes, map_map. reflexivity.
Qed.

Lemma joinAddresses_error {ext : Externals} (he : HeaderEncoder) (err : error)
    (addrs : list MailAddress) :
  forall i col buf,
    joinAddresses he i col buf addrs = Err err ->
    exists (c : Z) (a : MailAddress),
      In a addrs /\ Name a <> ""%string /\ he c (Name a) = Err err.
Proof.
  induction addrs as [|a rest IH]; intros i col buf; cbn [joinAddresses];
    [discriminate|].
  destruct (if i >? 0 then _ else _) as [col1 buf1].
  destruct (String.eqb_spec (Name a) "") as [Hname|Hname]; cbn [negb].
  - intros H. destruct (IH _ _ _ H) as (c & a' & Hin & Hn & Hc).
    exists c, a'. auto using in_cons.
  - destruct (he col1 (Name a)) as [[colName encoded]|err0] eqn:Ehe.
    + destruct (colName >? 76); intros H;
        destruct (IH _ _ _ H) as (c & a' & Hin & Hn & Hc);
        exists c, a'; auto using in_cons.
    + intros [= ->]. exists col1, a. auto using in_eq.
Qed.

(** X17: an error of [EncodeAwareJoinAddress] is an error the header
    encoder returned for the display name of one of the addresses;
    nothing else fails, so a list without display names, or a header
    encoder that returns no error, gives a text. *)
Theorem X17_address_error_from_header_encoder {ext : Externals}
    (he : HeaderEncoder) (startColumn : Z) (addrs : list MailAddress)
    (err : error) :
  EncodeAwareJoinAddress he startColumn addrs = Err err ->
  exists (col : Z) (a : MailAddress),
    In a addrs /\ Name a <> ""%string /\ he col (Name a) = Err err.
Proof.
  unfold EncodeAwareJoinAddress. destruct (len addrs =? 0); [discriminate|].
  apply joinAddresses_error.
Qed.

Lemma X17_address_error_from_header_encoder_witness :
  exists (col : Z) (a : MailAddress),
    In a [mkAddress "" "a@x.com"; mkAddress "Bob" "b@y.com"]
    /\ Name a <> ""%string
    /\ (fun (_ : Z) (_ : string) => Err "no encoder"%string : Result (Z * string))
         col (Name a) = Err "no encoder"%string.
Proof.
  apply (X17_address_error_from_header_encoder (ext := stdExternals)
           (fun _ _ => Err "no encoder"%string) 0
           [mkAddress "" "a@x.com"; mkAddress "Bob" "b@y.com"]).
  reflexivity.
Defined.

Lemma encodedAddress_unfold {ext : Externals} (word : string -> string)
    (a : MailAddress) :
  encodedAddress word a
  = ((if String.eqb (Name a) "" then "" else word (Name a) ++ " ")
     ++ addressString (Address a))%string.
Proof. reflexivity. Qed.

Lemma stripCRLF_app (a b : bytes) : stripCRLF (a ++ b) = stripCRLF a ++ stripCRLF b.
Proof. apply List.filter_app. Qed.

Lemma stripCRLF_crlf : stripCRLF crlf = [].
Proof. reflexivity. Qed.

Lemma joinAddresses_strip {ext : Externals} (he : HeaderEncoder)
    (word : string -> string) (addrs : list MailAddress) :
  (forall col v, exists col', he col v = Ok (col', word v)) ->
  forall i col buf buf',
    stripCRLF buf = stripCRLF buf' ->
    exists out,
      joinAddresses he i col buf addrs = Ok out
      /\ stripCRLF (bytesOf out)
         = stripCRLF (bytesOf (joinPlain (encodedAddress word) i buf' addrs)).
Proof.
  intros Hhe. induction addrs as [|a rest IH]; intros i col buf buf' Hbuf;
    cbn [joinAddresses joinPlain].
  - eexists. split; [reflexivity|]. now rewrite !bytesOf_stringOf.
  - assert (Hsep : forall c b,
               (if i >? 0
                then let '(c1, b1) := if wrap_int (col + 1) >? 76
                                      then (0, (buf ++ [","%char]) ++ crlf)
                                      else (wrap_int (col + 1), buf ++ [","%char]) in
                     (wrap_int (c1 + 1), b1 ++ [SP])
                else (col, buf)) = (c, b) ->
               stripCRLF b
               = stripCRLF (if i >? 0 then buf' ++ bytesOf ", " else buf')).
    { intros c b. destruct (i >? 0); [|now intros [= _ <-]].
      destruct (wrap_int (col + 1) >? 76); intros [= _ <-];
        change (bytesOf ", ") with ([","%char] ++ [SP]);
        rewrite !stripCRLF_app, ?stripCRLF_crlf, ?app_nil_r, Hbuf, ?app_assoc;
        reflexivity. }
    destruct (if i >? 0 then _ else _) as [col1 buf1] eqn:Esep.
    specialize (Hsep _ _ eq_refl).
    rewrite (encodedAddress_unfold word a).
    destruct (String.eqb (Name a) ""); cbn [negb].
    + apply IH. now rewrite !stripCRLF_app, Hsep.
    + destruct (Hhe col1 (Name a)) as (colName & ->).
      destruct (colName >? 76); apply IH;
        rewrite !bytesOf_app; change (bytesOf " ") with [SP];
        rewrite !stripCRLF_app, ?stripCRLF_crlf, ?app_nil_r, Hsep, ?app_assoc;
        reflexivity.
Qed.

(** X18: for a header encoder that returns no error and whose text does
    not depend on the column, the folds of [EncodeAwareJoinAddress] only
    insert line breaks: without its CR and LF bytes, the text is that of
    [JoinAddress] over the addresses written with their encoded names. *)
Theorem X18_folds_only_insert_line_breaks {ext : Externals}
    (he : HeaderEncoder) (word : string -> string) (startColumn : Z)
    (addrs : list MailAddress) :
  (forall col v, exists col', he col v = Ok (col', word v)) ->
  exists out,
    EncodeAwareJoinAddress he startColumn addrs = Ok out
    /\ stripCRLF (bytesOf out)
       = stripCRLF (bytesOf (JoinAddress (encodedAddress word) addrs)).
Proof.
  intros Hhe. unfold EncodeAwareJoinAddress, JoinAddress.
  destruct (len addrs =? 0); [now eexists|].
  now apply joinAddresses_strip.
Qed.

Lemma X18_folds_only_insert_line_breaks_witness :
  exists out,
    EncodeAwareJoinAddress (ext := stdExternals)
      (fun col v => Ok (wrap_int (col + len (bytesOf v)), v)) 70
      Sample.twoAddresses = Ok out
    /\ stripCRLF (bytesOf out)
       = stripCRLF (bytesOf (JoinAddress (encodedAddress (ext := stdExternals)
                                            (fun v => v))
                               Sample.twoAddresses)).
Proof.
  apply (X18_folds_only_insert_line_breaks (ext := stdExternals)
           (fun col v => Ok (wrap_int (col + len (bytesOf v)), v)) (fun v => v)
           70 Sample.twoAddresses).
  intros col v. eexists. reflexivity.
Defined.

Lemma gtb_le_false (a b : Z) : a <= b -> (a >? b) = false.
Proof. intros H. rewrite Z.gtb_ltb. now apply Z.ltb_ge. Qed.

Lemma joinPlain_grows (str : MailAddress -> string) (addrs : list MailAddress) :
  forall i buf, len buf <= len (bytesOf (joinPlain str i buf addrs)).
Proof.
  induction addrs as [|a rest IH]; intros i buf; cbn [joinPlain].
  - rewrite bytesOf_stringOf. lia.
  - etransitivity; [|apply IH]. rewrite len_app.
    pose proof (len_nonneg (bytesOf (str a))).
    destruct (i >? 0); rewrite ?len_app; pose proof (len_nonneg (bytesOf ", ")); lia.
Qed.

Lemma joinAddresses_fits {ext : Externals} (he : HeaderEncoder)
    (word : string -> string) (startColumn : Z) (addrs : list MailAddress) :
  (forall col v, he col v = Ok (wrap_int (col + len (bytesOf (word v))), word v)) ->
  forall i col buf,
    0 <= col <= startColumn + len buf ->
    startColumn + len (bytesOf (joinPlain (encodedAddress word) i buf addrs)) <= 76 ->
    joinAddresses he i col buf addrs
    = Ok (joinPlain (encodedAddress word) i buf addrs).
Proof.
  intros Hhe. induction addrs as [|a rest IH]; intros i col buf Hcol Hfit;
    cbn [joinAddresses joinPlain] in *; [reflexivity|].
  pose proof (joinPlain_grows (encodedAddress word) rest (i + 1)
                ((if i >? 0 then buf ++ bytesOf ", " else buf)
                 ++ bytesOf (encodedAddress word a))) as Hgrow.
  rewrite len_app in Hgrow.
  pose proof (len_nonneg (bytesOf (encodedAddress word a))) as Henc.
  set (tail := joinPlain (encodedAddress word) (i + 1)) in *.
  assert (Hsep : exists c,
             (if i >? 0
              then let '(c1, b1) := if wrap_int (col + 1) >? 76
                                    then (0, (buf ++ [","%char]) ++ crlf)
                                    else (wrap_int (col + 1), buf ++ [","%char]) in
                   (wrap_int (c1 + 1), b1 ++ [SP])
              else (col, buf))
             = (c, if i >? 0 then buf ++ bytesOf ", " else buf)
             /\ 0 <= c <= startColumn
                           + len (if i >? 0 then buf ++ bytesOf ", " else buf)).
  { destruct (i >? 0); [|now exists col].
    rewrite len_app in *. change (len (bytesOf ", ")) with 2 in *.
    rewrite (wrap_int_small (col + 1)) by lia.
    rewrite (gtb_le_false (col + 1) 76) by lia.
    rewrite (wrap_int_small (col + 1 + 1)) by lia.
    exists (col + 1 + 1). rewrite <- app_assoc. split; [reflexivity | lia]. }
  destruct Hsep as (col1 & -> & Hcol1).
  set (buf1 := if i >? 0 then buf ++ bytesOf ", " else buf) in *.
  pose proof (len_nonneg (bytesOf (addressString (Address a)))) as Haddr.
  pose proof (len_nonneg (bytesOf (word (Name a)))) as Hword.
  rewrite (encodedAddress_unfold word a) in *.
  destruct (String.eqb (Name a) ""); cbn [negb].
  - change (bytesOf (""%string ++ addressString (Address a))%string)
      with (bytesOf (addressString (Address a))) in *.
    apply IH; [|exact Hfit].
    rewrite len_app, wrap_int_small by lia. lia.
  - rewrite !bytesOf_app in *. change (bytesOf " ") with [SP] in *.
    repeat rewrite ?len_app, ?len_cons in Hgrow. change (len (@nil ascii)) with 0 in Hgrow.
    rewrite Hhe. rewrite (wrap_int_small (col1 + _)) by lia.
    rewrite (gtb_le_false (col1 + len (bytesOf (word (Name a)))) 76) by lia.
    replace ((buf1 ++ bytesOf (word (Name a))) ++ [SP])
      with (buf1 ++ bytesOf (word (Name a)) ++ [SP]) by now rewrite <- app_assoc.
    replace ((buf1 ++ bytesOf (word (Name a)) ++ [SP])
             ++ bytesOf (addressString (Address a)))
      with (buf1 ++ (bytesOf (word (Name a)) ++ [SP])
                 ++ bytesOf (addressString (Address a)))
      by now rewrite <- !app_assoc.
    apply IH; [|exact Hfit].
    repeat rewrite ?len_app, ?len_cons. change (len (@nil ascii)) with 0.
    rewrite wrap_int_small by lia. lia.
Qed.

(** X19: with a header encoder that returns the column moved by the
    length of its text, as the default one does, an address list that
    ends within 76 columns is written without a fold: the text is that
    of [JoinAddress] over the addresses written with their encoded
    names. *)
Theorem X19_short_list_not_folded {ext : Externals} (he : HeaderEncoder)
    (word : string -> string) (startColumn : Z) (addrs : list MailAddress) :
  (forall col v, he col v = Ok (wrap_int (col + len (bytesOf (word v))), word v)) ->
  0 <= startColumn ->
  startColumn + len (bytesOf (JoinAddress (encodedAddress word) addrs)) <= 76 ->
  EncodeAwareJoinAddress he startColumn addrs
  = Ok (JoinAddress (encodedAddress word) addrs).
Proof.
  intros Hhe Hcol Hfit. unfold EncodeAwareJoinAddress, JoinAddress in *.
  destruct (len addrs =? 0); [reflexivity|].
  apply (joinAddresses_fits he word startColumn); [exact Hhe | | exact Hfit].
  change (len (@nil ascii)) with 0. lia.
Qed.

Lemma X19_short_list_not_folded_witness :
  EncodeAwareJoinAddress (ext := stdExternals)
    (fun col v => Ok (wrap_int (col + len (bytesOf v)), v)) 4
    [mkAddress "Ann" "a@x.com"; mkAddress "" "b@y.com"]
  = Ok (JoinAddress (encodedAddress (ext := stdExternals) (fun v => v))
          [mkAddress "Ann" "a@x.com"; mkAddress "" "b@y.com"]).
Proof.
  apply (X19_short_list_not_folded (ext := stdExternals)
           (fun col v => Ok (wrap_int (col + len (bytesOf v)), v)) (fun v => v) 4
           [mkAddress "Ann" "a@x.com"; mkAddress "" "b@y.com"]).
  - intros col v. reflexivity.
  - lia.
  - vm_compute. discriminate.
Defined.
